(** * EfficientDet: training losses and detector orchestration

    A shallow embedding of [loss_functions.py] and [efficientdet.py].

    Conventions of the embedding.
    - A [tf.float32] tensor entry is an ideal real number ([R]): rounding,
      NaN and the infinities are outside the model.
    - The tensors the losses see are of rank 2 ([anchors x classes] or
      [anchors x coordinates]) and rank 3 (a batch of those); they are
      nested lists, outermost axis first.
    - A TensorFlow call that raises at run time (an index out of range, two
      operands whose shapes differ) evaluates to [None].  Broadcasting of
      operands of different shapes is not modelled: the losses are only
      applied to co-indexed tensors. *)

From Stdlib Require Import Reals Lra ZArith String.
From stdpp Require Import base option list strings gmap.

Open Scope R_scope.

(** ** Tensors *)

Module Tensor.

Abbreviation tensor1 := (list R).
Abbreviation tensor2 := (list (list R)).
Abbreviation tensor3 := (list (list (list R))).

#[global] Instance R_eq_dec : EqDecision R := Req_dec_T.

(** Element-wise unary operation on a rank-2 tensor. *)
Definition tmap {A B} (f : A -> B) (t : list (list A)) : list (list B) :=
  map (map f) t.

(** Element-wise binary operation on two vectors of the same length. *)
Fixpoint vzip {A B C} (f : A -> B -> C) (u : list A) (v : list B)
  : option (list C) :=
  match u, v with
  | [], [] => Some []
  | a :: u', b :: v' => cs ← vzip f u' v'; Some (f a b :: cs)
  | _, _ => None
  end.

(** Element-wise binary operation on two rank-2 tensors of the same shape. *)
Fixpoint tzip {A B C} (f : A -> B -> C) (s : list (list A)) (t : list (list B))
  : option (list (list C)) :=
  match s, t with
  | [], [] => Some []
  | u :: s', v :: t' =>
      r ← vzip f u v; rs ← tzip f s' t'; Some (r :: rs)
  | _, _ => None
  end.

(** [tf.where(cond, x, y)]: element-wise choice. *)
Definition select {A} (cond : list (list bool)) (x y : list (list A))
  : option (list (list A)) :=
  xy ← tzip pair x y;
  tzip (fun (c : bool) (p : A * A) => if c then p.1 else p.2) cond xy.

(** [tf.equal(t, c)] against a constant. *)
Definition equal (t : tensor2) (c : R) : list (list bool) :=
  tmap (fun x => bool_decide (x = c)) t.

Definition ones_like (t : tensor2) : tensor2 := tmap (fun _ => 1) t.

(** [tf.clip_by_value(t, lo, hi)]. *)
Definition clip (lo hi x : R) : R := Rmax lo (Rmin x hi).
Definition clip_by_value (t : tensor2) (lo hi : R) : tensor2 :=
  tmap (clip lo hi) t.

Definition sum_list (v : list R) : R := foldr Rplus 0 v.

(** [tf.reduce_sum(t)] and [tf.reduce_mean(t)] over all entries.  The mean
    of no entries, a NaN in TensorFlow, has no counterpart here. *)
Definition reduce_sum2 (t : tensor2) : R := sum_list (concat t).
Definition reduce_mean2 (t : tensor2) : R :=
  sum_list (concat t) / INR (length (concat t)).

Definition reduce_sum1 (v : tensor1) : R := sum_list v.
Definition reduce_mean1 (v : tensor1) : R := sum_list v / INR (length v).

(** [tf.reduce_mean(t, axis=-1)]. *)
Definition reduce_mean_last (t : tensor2) : tensor1 := map reduce_mean1 t.

End Tensor.

(** ** loss_functions.py *)

Module Losses.
Import Tensor.

#[global] Instance Rlt_decision (x y : R) : Decision (x < y) := Rlt_dec x y.

(** What a loss function hands back: a scalar after a ['mean'] or ['sum']
    reduction, the unreduced tensor otherwise. *)
Inductive loss_value :=
| Scalar (r : R)
| PerAnchor (v : tensor1)
| PerEntry (t : tensor2).

(** [tf.sigmoid], [tf.pow], [tf.math.log], [tf.abs], [tf.square]. *)
Definition sigmoid (x : R) : R := 1 / (1 + exp (- x)).
Definition pow (x y : R) : R := Rpower x y.
Definition log (x : R) : R := ln x.
Definition square (x : R) : R := x * x.

(** [focal_loss(y_true, y_pred, gamma=1.5, alpha=0.25, from_logits=False,
    reduction='sum')].  A keyword argument left out is [None] here. *)
Definition focal_loss (y_true y_pred : tensor2) (gamma alpha : option R)
    (from_logits : option bool) (reduction : option string)
  : option loss_value :=
  let gamma := default 1.5 gamma in
  let alpha := default 0.25 alpha in
  let from_logits := default false from_logits in
  let reduction := default "sum"%string reduction in
  let y_pred := if from_logits then tmap sigmoid y_pred else y_pred in
  let epsilon := 1e-6 in
  let y_pred := clip_by_value y_pred epsilon (1 - epsilon) in
  let alpha := tmap (fun o => o * alpha) (ones_like y_true) in
  alpha ← select (equal y_true 1) alpha (tmap (fun a => 1 - a) alpha);
  pt ← select (equal y_true 1) y_pred (tmap (fun p => 1 - p) y_pred);
  weighted ← tzip Rmult (tmap Ropp alpha)
                        (tmap (fun q => pow (1 - q) gamma) pt);
  loss ← tzip Rmult weighted (tmap log pt);
  Some (if bool_decide (reduction = "mean"%string)
        then Scalar (reduce_mean2 loss)
        else if bool_decide (reduction = "sum"%string)
        then Scalar (reduce_sum2 loss)
        else PerEntry loss).

(** [huber_loss(y_true, y_pred, clip_delta=1.0, reduction='sum')]. *)
Definition huber_loss (y_true y_pred : tensor2) (clip_delta : option R)
    (reduction : option string) : option loss_value :=
  let clip_delta := default 1.0 clip_delta in
  let reduction := default "sum"%string reduction in
  error ← tzip Rminus y_true y_pred;
  let cond := tmap (fun e => bool_decide (Rabs e < clip_delta)) error in
  let squared_loss := tmap (fun e => 0.5 * square e) error in
  let linear_loss :=
    tmap (fun e => clip_delta * (Rabs e - 0.5 * clip_delta)) error in
  loss ← select cond squared_loss linear_loss;
  let loss := reduce_mean_last loss in
  Some (if bool_decide (reduction = "mean"%string)
        then Scalar (reduce_mean1 loss)
        else if bool_decide (reduction = "sum"%string)
        then Scalar (reduce_sum1 loss)
        else PerAnchor loss).

(** *** Anchor-state masking *)

(** [t[:, :, -1]]: the last entry of every innermost vector; an empty last
    axis cannot be indexed. *)
Definition index_last (t : tensor3) : option tensor2 :=
  mapM (mapM (last (A:=R))) t.

(** [t[:, :, :-1]]. *)
Definition drop_last (t : tensor3) : tensor3 := tmap (removelast (A:=R)) t.

(** [tf.where(mask)] with one argument: the coordinates of the true
    entries, in row-major order. *)
Fixpoint where_row (j : nat) (row : list bool) : list nat :=
  match row with
  | [] => []
  | b :: row' => (if b then [j] else []) ++ where_row (S j) row'
  end.

Fixpoint where_from (i : nat) (mask : list (list bool)) : list (nat * nat) :=
  match mask with
  | [] => []
  | row :: mask' => map (pair i) (where_row 0 row) ++ where_from (S i) mask'
  end.

Definition where_true (mask : list (list bool)) : list (nat * nat) :=
  where_from 0 mask.

(** [tf.gather_nd(params, indices)] for indices into the two leading axes;
    an index out of range is an error.  A gather of no index is the empty
    list: it does not carry the width of the last axis, which TensorFlow
    keeps (shape [[0, k]]) and the library loss objects compare.  What is
    said of an empty gather is therefore said of targets and predictions
    whose widths agree ([Spec.co_shaped]). *)
Definition gather_nd {A} (params : list (list A)) (indices : list (nat * nat))
  : option (list A) :=
  mapM (fun ij : nat * nat => row ← params !! ij.1; row !! ij.2) indices.

(** The library loss objects the two classes delegate to
    ([tfa.losses.SigmoidFocalCrossEntropy] and [tf.losses.Huber], both with
    [Reduction.SUM]) are not part of the repository: a loss object is any
    function from the gathered targets and predictions to a scalar, or to a
    run-time error. *)
Definition loss_object := tensor2 -> tensor2 -> option R.

Record EfficientDetFocalLoss := {
  fl_alpha : R;
  fl_gamma : R;
  fl_loss_fn : loss_object
}.

Record EfficientDetHuberLoss := {
  hl_delta : R;
  hl_loss_fn : loss_object
}.

(** What an initialiser can raise. *)
Inductive init_error :=
| AttributeError (name : string).

Section Classes.
Variable SigmoidFocalCrossEntropy : R -> R -> loss_object.
Variable Huber : R -> loss_object.

(** [EfficientDetFocalLoss.__init__(alpha=0.25, gamma=1.5)]. *)
Definition EfficientDetFocalLoss_init (alpha gamma : option R)
  : EfficientDetFocalLoss :=
  let alpha := default 0.25 alpha in
  let gamma := default 1.5 gamma in
  {| fl_alpha := alpha; fl_gamma := gamma;
     fl_loss_fn := SigmoidFocalCrossEntropy alpha gamma |}.

(** [super(EfficientDetHuberLoss, self).__init()], line 84: inside the
    class body the name [__init] is mangled to
    [_EfficientDetHuberLoss__init]; the base class has no attribute of that
    name, the lookup raises. *)
Definition super__init : init_error + unit :=
  inl (AttributeError "_EfficientDetHuberLoss__init").

(** [EfficientDetHuberLoss.__init__(delta=1.)]. *)
Definition EfficientDetHuberLoss_init (delta : option R)
  : init_error + EfficientDetHuberLoss :=
  let delta := default 1 delta in
  match super__init with
  | inl e => inl e
  | inr _ => inr {| hl_delta := delta; hl_loss_fn := Huber delta |}
  end.
End Classes.

(** [EfficientDetFocalLoss.call(y_true, y_pred)]. *)
Definition EfficientDetFocalLoss_call (self : EfficientDetFocalLoss)
    (y_true y_pred : tensor3) : option R :=
  anchors_states ← index_last y_true;
  let labels := drop_last y_true in
  let not_ignore_idx :=
    where_true (tmap (fun s => negb (bool_decide (s = -1))) anchors_states) in
  let true_idx := where_true (equal anchors_states 1) in
  let normalizer := INR (length true_idx) in
  let normalizer := Rmax 1 normalizer in
  y_true ← gather_nd labels not_ignore_idx;
  y_pred ← gather_nd y_pred not_ignore_idx;
  loss ← fl_loss_fn self y_true y_pred;
  Some (loss / normalizer).

(** [EfficientDetHuberLoss.call(y_true, y_pred)], on any object that has
    the two fields.  Line 94 of the source lacks the parenthesis that closes
    [tf.where(...)]; it is read as [tf.where(tf.equal(anchors_states, 1.))]. *)
Definition EfficientDetHuberLoss_call (self : EfficientDetHuberLoss)
    (y_true y_pred : tensor3) : option R :=
  anchors_states ← index_last y_true;
  let labels := drop_last y_true in
  let true_idx := where_true (equal anchors_states 1) in
  let normalizer := INR (length true_idx) in
  let normalizer := Rmax 1 normalizer in
  let normalizer := normalizer * 4 in
  y_true ← gather_nd labels true_idx;
  y_pred ← gather_nd y_pred true_idx;
  loss ← hl_loss_fn self y_true y_pred;
  Some (50 * (loss / normalizer)).

End Losses.

(** ** efficientdet.py *)

Module Detector.

(** The exceptions construction can end in. *)
Inductive exn :=
| ValueError (msg : string)
| KeyError (key : string)
| NameError (name : string)
| IOError (what : string).

(** The calls into the collaborators that construction performs, in the
    order it performs them. *)
Inductive event :=
| KerasModelInit
| DownloadFolder (path : string)
| JsonLoad (path : string)
| BuildConfig (D : Z)
| BuildBackbone (B : Z) (weights : option string)
| SetBackboneTrainable (trainable : bool)
| BuildNeck
| BuildClassHead (num_classes : Z)
| BuildBBHead
| BuildFilterDetections
| BuildModel
| LoadWeights (path : string) (skip_mismatch : bool).

(** Only the initialiser of the base class touches no layer, weight or
    file; every other event builds or runs part of the network. *)
Definition builds_network (e : event) : bool :=
  match e with
  | KerasModelInit => false
  | _ => true
  end.

(** Construction either returns or raises, and leaves a trace of events. *)
Inductive outcome (A : Type) :=
| Return (a : A)
| Raise (e : exn).
Arguments Return {A} a.
Arguments Raise {A} e.

Definition M (A : Type) : Type := list event * outcome A.

#[global] Instance M_ret : MRet M := fun A (a : A) => ([], Return a).
#[global] Instance M_bind : MBind M := fun A B (k : A -> M B) (m : M A) =>
  match m with
  | (t, Return a) => let '(t', r) := k a in (t ++ t', r)
  | (t, Raise e) => (t, Raise e)
  end.

Definition raise {A} (e : exn) : M A := ([], Raise e).
Definition emit (e : event) : M unit := ([e], Return tt).
Definition lift {A} (o : option A) (e : exn) : M A :=
  match o with
  | Some a => mret a
  | None => raise e
  end.

(** [_AVAILABLE_WEIGHTS] and [_WEIGHTS_PATHS]. *)
Definition _AVAILABLE_WEIGHTS : gset (option string) :=
  {[ None; Some "imagenet"%string; Some "D0-VOC"%string ]}.

Definition _WEIGHTS_PATHS : gmap string string :=
  {[ "D0-VOC"%string := "gs://ml-generic-purpose-tf-models/D0-VOC"%string ]}.

(** The hyperparameters stored next to a checkpoint, [hp.json].  The file
    is taken to hold the three keys the constructor reads; a file that
    lacks one (a [KeyError] at lines 49 to 53) is outside the model. *)
Record hp_params := {
  n_classes : Z;
  hp_bidirectional : bool;
  hp_efficientdet : Z
}.

(** The types of the collaborating modules ([config], [backbone], [bifpn],
    [retinanet], [cnn_layers]) and of the tensors that flow between them. *)
Class Components := {
  TfTensor : Type;
  Detections : Type;
  Config : Type;
  AnchorsConfig : Type;
  Backbone : Type;
  Neck : Type;
  ClassHead : Type;
  BBHead : Type
}.

(** Modelled from the spec: [cnn_layers.FilterDetections] is not among the
    sources.  The object keeps the anchor configuration and the score
    threshold it was built with; the threshold is an attribute that is read
    when the filter is applied, so it can be set between calls. *)
Record FilterDetections `{Components} := {
  fd_anchors : AnchorsConfig;
  fd_score_threshold : R
}.

(** The operations of the collaborators.  Network components take the
    [training] flag of the call.  Downloading, reading and loading can
    fail ([None]). *)
Class Collaborators `{Components} := {
  EfficientDetCompudScaling : Z -> Config;
  config_B : Config -> Z;
  config_Wbifpn : Config -> Z;
  config_Dbifpn : Config -> Z;
  config_Dclass : Config -> Z;
  new_AnchorsConfig : AnchorsConfig;
  efficientnet_backbone : Z -> option string -> Backbone;
  set_trainable : bool -> Backbone -> Backbone;
  new_BiFPN : Z -> Z -> string -> Neck;
  RetinaNetClassifier : Z -> Z -> Z -> string -> ClassHead;
  RetinaNetBBPredictor : Z -> Z -> string -> BBHead;
  download_folder : string -> option string;
  json_load : string -> option hp_params;
  load_weights :
    string -> bool -> Backbone * Neck * ClassHead * BBHead ->
    option (Backbone * Neck * ClassHead * BBHead);
  backbone_call : Backbone -> TfTensor -> bool -> list TfTensor;
  neck_call : Neck -> list TfTensor -> bool -> list TfTensor;
  class_head_call : ClassHead -> TfTensor -> bool -> TfTensor;
  bb_head_call : BBHead -> TfTensor -> bool -> TfTensor;
  concat_axis1 : list TfTensor -> TfTensor;
  filter_detections_call :
    FilterDetections -> TfTensor -> TfTensor -> TfTensor -> Detections
}.

Section Model.
Context `{Collaborators}.

Record EfficientDet := {
  config : Config;
  backbone : Backbone;
  neck : Neck;
  num_classes : Z;
  class_head : ClassHead;
  bb_head : BBHead;
  training_mode : bool;
  filter_detections : FilterDetections
}.

(** The keyword arguments of [EfficientDet.__init__]. *)
Record init_args := {
  arg_num_classes : option Z;
  arg_D : Z;
  arg_bidirectional : bool;
  arg_freeze_backbone : bool;
  arg_score_threshold : R;
  arg_weights : option string;
  arg_custom_head_classifier : bool;
  arg_training_mode : bool
}.

(** The defaults of the signature. *)
Definition default_args : init_args :=
  {| arg_num_classes := None; arg_D := 0; arg_bidirectional := true;
     arg_freeze_backbone := false; arg_score_threshold := 0.1;
     arg_weights := Some "imagenet"%string;
     arg_custom_head_classifier := false; arg_training_mode := false |}.

Definition show_weights (w : option string) : string :=
  match w with
  | Some s => s
  | None => "None"
  end.

Definition msg_missing_num_classes : string :=
  "If include_top is False, you must specify the num_classes".
Definition msg_not_available (w : option string) : string :=
  "Weights " +:+ show_weights w +:+ " not available.".
Definition msg_custom_head_from_scratch : string :=
  "Custom Head does not make sense when training the model from scratch."
  +:+ "Set custom_head_classifier to False or specify other weights.".
Definition msg_num_classes_differ (w : option string) : string :=
  "Weights " +:+ show_weights w +:+
  " num classes are different from num_classes argument, please leave it as None or specify the correct classes".
Definition msg_no_num_classes : string :=
  "You have to specify the number of classes.".

Definition is_imagenet (w : option string) : bool :=
  bool_decide (w = Some "imagenet"%string).
Definition is_none {A} (o : option A) : bool :=
  match o with
  | None => true
  | Some _ => false
  end.

Definition set_training_mode (self : EfficientDet) (b : bool) : EfficientDet :=
  {| config := config self; backbone := backbone self; neck := neck self;
     num_classes := num_classes self; class_head := class_head self;
     bb_head := bb_head self; training_mode := b;
     filter_detections := filter_detections self |}.

Definition set_class_head (self : EfficientDet) (h : ClassHead) : EfficientDet :=
  {| config := config self; backbone := backbone self; neck := neck self;
     num_classes := num_classes self; class_head := h;
     bb_head := bb_head self; training_mode := training_mode self;
     filter_detections := filter_detections self |}.

Definition set_networks (self : EfficientDet)
    (w : Backbone * Neck * ClassHead * BBHead) : EfficientDet :=
  {| config := config self; backbone := w.1.1.1; neck := w.1.1.2;
     num_classes := num_classes self; class_head := w.1.2;
     bb_head := w.2; training_mode := training_mode self;
     filter_detections := filter_detections self |}.

(** [EfficientDet.__init__].  [weights is 'imagenet'] compares a string
    with an interned literal and is read as equality.  The message of the
    second check is cut short where the source f-string breaks off. *)
Definition EfficientDet_init (a : init_args) : M EfficientDet :=
  let num_classes := arg_num_classes a in
  let weights := arg_weights a in
  let custom_head_classifier := arg_custom_head_classifier a in
  let training_mode := arg_training_mode a in
  emit KerasModelInit;;
  (* Check arguments coherency *)
  (if custom_head_classifier && is_none num_classes
   then raise (ValueError msg_missing_num_classes) else mret tt);;
  (if bool_decide (weights ∉ _AVAILABLE_WEIGHTS)
   then raise (ValueError (msg_not_available weights)) else mret tt);;
  (if (is_imagenet weights || is_none weights) && custom_head_classifier
   then raise (ValueError msg_custom_head_from_scratch) else mret tt);;
  (* Hyperparameters of the checkpoint *)
  '(save_dir, bidirectional, D) ←
    (if negb (is_imagenet weights) && negb (is_none weights)
     then
       (* [weights] is a string here: [show_weights weights] is that string *)
       checkpoint_path ←
         lift (_WEIGHTS_PATHS !! show_weights weights)
              (KeyError (show_weights weights));
       emit (DownloadFolder checkpoint_path);;
       save_dir ← lift (download_folder checkpoint_path)
                       (IOError checkpoint_path);
       emit (JsonLoad (save_dir +:+ "/hp.json"));;
       params ← lift (json_load (save_dir +:+ "/hp.json"))
                     (IOError (save_dir +:+ "/hp.json"));
       (if negb (is_none num_classes) && negb custom_head_classifier
           && bool_decide (num_classes ≠ Some (n_classes params))
        then raise (ValueError (msg_num_classes_differ weights))
        else mret tt);;
       mret (Some save_dir, hp_bidirectional params, hp_efficientdet params)
     else mret (None, arg_bidirectional a, arg_D a));
  (* Declare the model architecture *)
  emit (BuildConfig D);;
  let config := EfficientDetCompudScaling D in
  (* Setup efficientnet backbone *)
  let backbone_weights :=
    if is_imagenet weights then Some "imagenet"%string else None in
  emit (BuildBackbone (config_B config) backbone_weights);;
  let backbone := efficientnet_backbone (config_B config) backbone_weights in
  emit (SetBackboneTrainable (negb (arg_freeze_backbone a)));;
  let backbone := set_trainable (negb (arg_freeze_backbone a)) backbone in
  (* Setup the feature extractor neck *)
  emit BuildNeck;;
  let neck :=
    new_BiFPN (config_Wbifpn config) (config_Dbifpn config) "bifpn/" in
  (* Setup the heads *)
  num_classes ← lift num_classes (ValueError msg_no_num_classes);
  emit (BuildClassHead num_classes);;
  let class_head :=
    RetinaNetClassifier (config_Wbifpn config) (config_Dclass config)
                        num_classes "class_head/" in
  emit BuildBBHead;;
  let bb_head :=
    RetinaNetBBPredictor (config_Wbifpn config) (config_Dclass config)
                         "regress_head/" in
  (* Inference variables *)
  emit BuildFilterDetections;;
  let self :=
    {| config := config; backbone := backbone; neck := neck;
       num_classes := num_classes; class_head := class_head;
       bb_head := bb_head; training_mode := training_mode;
       filter_detections :=
         {| fd_anchors := new_AnchorsConfig;
            fd_score_threshold := arg_score_threshold a |} |} in
  (* Load the weights if needed *)
  if negb (is_none weights) && negb (is_imagenet weights)
  then
    let tmp := training_mode in
    let self := set_training_mode self true in
    emit BuildModel;;
    save_dir ← lift save_dir (NameError "save_dir");
    emit (LoadWeights (save_dir +:+ "/model.h5") custom_head_classifier);;
    loaded ← lift (load_weights (save_dir +:+ "/model.h5")
                     custom_head_classifier
                     (backbone, neck, class_head, bb_head))
                  (IOError (save_dir +:+ "/model.h5"));
    let self := set_networks self loaded in
    let self := set_training_mode self tmp in
    let self := set_training_mode self tmp in
    (* Append a custom classifier *)
    if custom_head_classifier
    then
      emit (BuildClassHead num_classes);;
      mret (set_class_head self
              (RetinaNetClassifier (config_Wbifpn config)
                 (config_Dclass config) num_classes "class_head/"))
    else mret self
  else mret self.

(** The [score_threshold] property: getter and setter. *)
Definition score_threshold (self : EfficientDet) : R :=
  fd_score_threshold (filter_detections self).

Definition set_score_threshold (self : EfficientDet) (value : R)
  : EfficientDet :=
  {| config := config self; backbone := backbone self; neck := neck self;
     num_classes := num_classes self; class_head := class_head self;
     bb_head := bb_head self; training_mode := training_mode self;
     filter_detections :=
       {| fd_anchors := fd_anchors (filter_detections self);
          fd_score_threshold := value |} |}.

(** What a forward call returns: the raw per-anchor tensors, or the
    output of the detection filter. *)
Inductive call_out :=
| TrainingOut (bboxes class_scores : TfTensor)
| InferenceOut (detections : Detections).

(** Lines 104 to 119 of [EfficientDet.call]: the tensors every forward call
    computes before it chooses what to return, given the flag it hands to
    the backbone, the neck and the heads. *)
Definition forward (self : EfficientDet) (images : TfTensor)
    (training : bool) : TfTensor * TfTensor :=
  let features := backbone_call (backbone self) images training in
  let bifnp_features := neck_call (neck self) features training in
  let bboxes :=
    map (fun bf => bb_head_call (bb_head self) bf training) bifnp_features in
  let class_scores :=
    map (fun bf => class_head_call (class_head self) bf training)
        bifnp_features in
  let bboxes := concat_axis1 bboxes in
  let class_scores := concat_axis1 class_scores in
  (bboxes, class_scores).

(** [EfficientDet.call(images, training=True)]. *)
Definition call (self : EfficientDet) (images : TfTensor)
    (training : option bool) : call_out :=
  let training := default true training in
  let training := training && training_mode self in
  let '(bboxes, class_scores) := forward self images training in
  if training_mode self
  then TrainingOut bboxes class_scores
  else InferenceOut
         (filter_detections_call (filter_detections self)
            images bboxes class_scores).
End Model.

End Detector.

(** ** The losses as the specification words them *)

Module Spec.
Import Tensor Losses.

(** Clipping into the interval [[lo, hi]]. *)
Definition clip_into (lo hi p : R) : R :=
  if Rlt_dec p lo then lo else if Rlt_dec hi p then hi else p.

(** [-alpha_t * (1 - p_t)^gamma * log(p_t)] for one anchor and one class. *)
Definition focal_entry (gamma alpha : R) (from_logits : bool) (y p : R) : R :=
  let p := if from_logits then 1 / (1 + exp (- p)) else p in
  let p := clip_into 1e-6 (1 - 1e-6) p in
  let p_t := if decide (y = 1) then p else 1 - p in
  let alpha_t := if decide (y = 1) then alpha else 1 - alpha in
  - alpha_t * Rpower (1 - p_t) gamma * ln p_t.

(** The per-coordinate Huber loss of an error [e]. *)
Definition huber_entry (delta e : R) : R :=
  if Rlt_dec (Rabs e) delta
  then 0.5 * e ^ 2
  else delta * (Rabs e - 0.5 * delta).

(** The anchors of a batch: the target vector of every anchor next to the
    prediction vector at the same position, image after image. *)
Definition anchors (y_true y_pred : tensor3) : list (list R * list R) :=
  concat (zip_with zip y_true y_pred).

(** The state of an anchor is the last entry of its target vector, the
    entries before it are its labels (or its box offsets). *)
Definition state (a : list R * list R) : R := default 0 (last a.1).
Definition targets (a : list R * list R) : list R := removelast a.1.
Definition predictions (a : list R * list R) : list R := a.2.

Definition ignored (s : R) : bool := bool_decide (s = -1).
Definition positive (s : R) : bool := bool_decide (s = 1).

(** The anchors whose state passes [keep], in their order. *)
Definition participating (keep : R -> bool) (y_true y_pred : tensor3)
  : list (list R * list R) :=
  List.filter (fun a => keep (state a)) (anchors y_true y_pred).

(** Targets and predictions are co-indexed: as many prediction vectors as
    target vectors in every image, and every target vector carries a
    state. *)
Definition co_indexed (y_true y_pred : tensor3) : Prop :=
  Forall2 (fun ts ps : tensor2 => length ts = length ps) y_true y_pred
  /\ Forall (Forall (fun a : list R => a <> [])) y_true.

(** Targets and predictions have the shapes of the contract: the same
    images, the same anchors in every image, and for every anchor a target
    vector that is one entry -- the state -- longer than its prediction
    vector. *)
Definition co_shaped (y_true y_pred : tensor3) : Prop :=
  Forall2 (Forall2 (fun a p : list R => length a = S (length p)))
          y_true y_pred.

(** The entries of [xs] at the positions where [mask] holds. *)
Fixpoint pick {A} (mask : list bool) (xs : list A) : list A :=
  match mask, xs with
  | b :: mask', x :: xs' => if b then x :: pick mask' xs' else pick mask' xs'
  | _, _ => []
  end.

(** A library loss object stood in for by a loss function of this module
    under its ['sum'] reduction. *)
Definition summed (f : tensor2 -> tensor2 -> option loss_value) : loss_object :=
  fun t p =>
    match f t p with
    | Some (Scalar r) => Some r
    | _ => None
    end.

End Spec.

(** ** Concrete inputs *)

Module Scenario.
Import Tensor Losses.

(** One image with three anchors over two classes: a positive anchor, a
    negative one and an ignored one. *)
Definition y_true : tensor3 := [[[1; 0; 1]; [0; 0; 0]; [0; 1; -1]]].
Definition y_pred : tensor3 := [[[0.9; 0.1]; [0.2; 0.3]; [0.5; 0.5]]].

(** One image with two anchors and their box offsets: a positive anchor and
    a negative one. *)
Definition box_true : tensor3 := [[[0.1; 0.1; 0.2; 0.2; 1]; [0; 0; 0; 0; 0]]].
Definition box_pred : tensor3 := [[[0; 0; 0; 0]; [1; 1; 1; 1]]].

(** One image whose two anchors are both ignored. *)
Definition all_ignored : tensor3 := [[[1; 0; -1]; [0; 0; -1]]].

(** Loss objects built on the loss functions of this module. *)
Definition focal : EfficientDetFocalLoss :=
  EfficientDetFocalLoss_init
    (fun alpha gamma =>
       Spec.summed (fun t p => focal_loss t p (Some gamma) (Some alpha) None None))
    None None.

Definition huber : EfficientDetHuberLoss :=
  {| hl_delta := 1;
     hl_loss_fn := Spec.summed (fun t p => huber_loss t p (Some 1) None) |}.

(** A detector whose networks are trivial and whose filter reports the
    threshold it applied. *)
#[export] Instance toy_components : Detector.Components := {|
  Detector.TfTensor := unit;
  Detector.Detections := R;
  Detector.Config := Z;
  Detector.AnchorsConfig := unit;
  Detector.Backbone := unit;
  Detector.Neck := unit;
  Detector.ClassHead := Z;
  Detector.BBHead := unit
|}.

#[export] Instance toy : Detector.Collaborators := {|
  Detector.EfficientDetCompudScaling := fun D => D;
  Detector.config_B := fun c => c;
  Detector.config_Wbifpn := fun _ => 64%Z;
  Detector.config_Dbifpn := fun _ => 3%Z;
  Detector.config_Dclass := fun _ => 3%Z;
  Detector.new_AnchorsConfig := tt;
  Detector.efficientnet_backbone := fun _ _ => tt;
  Detector.set_trainable := fun _ b => b;
  Detector.new_BiFPN := fun _ _ _ => tt;
  Detector.RetinaNetClassifier := fun _ _ n _ => n;
  Detector.RetinaNetBBPredictor := fun _ _ _ => tt;
  Detector.download_folder := fun _ => Some "/tmp/D0-VOC"%string;
  Detector.json_load := fun _ =>
    Some {| Detector.n_classes := 20; Detector.hp_bidirectional := true;
            Detector.hp_efficientdet := 0 |};
  Detector.load_weights := fun _ _ w => Some w;
  Detector.backbone_call := fun _ x _ => [x];
  Detector.neck_call := fun _ xs _ => xs;
  Detector.class_head_call := fun _ x _ => x;
  Detector.bb_head_call := fun _ x _ => x;
  Detector.concat_axis1 := fun _ => tt;
  Detector.filter_detections_call := fun fd _ _ _ =>
    Detector.fd_score_threshold fd
|}.

(** A detector of 20 classes built in training mode. *)
Definition model : Detector.EfficientDet :=
  {| Detector.config := 0%Z; Detector.backbone := tt; Detector.neck := tt;
     Detector.num_classes := 20; Detector.class_head := 20%Z;
     Detector.bb_head := tt; Detector.training_mode := true;
     Detector.filter_detections :=
       {| Detector.fd_anchors := tt; Detector.fd_score_threshold := 0.1 |} |}.

(** Arguments that ask for a custom head without a class count, and
    arguments that ask for the checkpoint without a class count. *)
Definition custom_head_args : Detector.init_args :=
  {| Detector.arg_num_classes := None; Detector.arg_D := 0;
     Detector.arg_bidirectional := true; Detector.arg_freeze_backbone := false;
     Detector.arg_score_threshold := 0.1;
     Detector.arg_weights := Some "D0-VOC"%string;
     Detector.arg_custom_head_classifier := true;
     Detector.arg_training_mode := false |}.

Definition checkpoint_args : Detector.init_args :=
  {| Detector.arg_num_classes := None; Detector.arg_D := 0;
     Detector.arg_bidirectional := true; Detector.arg_freeze_backbone := false;
     Detector.arg_score_threshold := 0.1;
     Detector.arg_weights := Some "D0-VOC"%string;
     Detector.arg_custom_head_classifier := false;
     Detector.arg_training_mode := false |}.

End Scenario.

(** ** EfficientDet.from_pretrained *)

Module Pretrained.
Import Detector.

(** What [from_pretrained] does to the outside world, in order. *)
Inductive effect :=
| Load (path : string)
| Print (msg : string)
| NewClassHead (W D num_classes : Z).

(** What [from_pretrained] needs beyond the collaborators of the
    constructor: the file system ([Path.is_dir]), the loader of
    [utils.checkpoint], which hands back a model and the stored
    hyperparameters or fails, the field [D] of the configuration and the
    prefix [RetinaNetClassifier] takes when none is given. *)
Class Checkpoints `{Collaborators} := {
  Kwargs : Type;
  Stored : Type;
  is_dir : string -> bool;
  load : string -> Kwargs -> option (EfficientDet * Stored);
  config_D : Config -> Z;
  RetinaNetClassifier_prefix : string
}.

Section FromPretrained.
Context `{Checkpoints}.

Definition set_num_classes (self : EfficientDet) (n : Z) : EfficientDet :=
  {| config := config self; backbone := backbone self; neck := neck self;
     num_classes := n; class_head := class_head self;
     bb_head := bb_head self; training_mode := training_mode self;
     filter_detections := filter_detections self |}.

Definition msg_checkpoint_not_available (checkpoint_path : string) : string :=
  "Checkpoint " +:+ checkpoint_path +:+ " is not available".

(** [EfficientDet.from_pretrained(checkpoint_path, num_classes=None,
    **kwargs)], with [checkpoint_path] as the string [str] makes of it. *)
Definition from_pretrained (checkpoint_path : string) (num_classes : option Z)
    (kwargs : Kwargs) : list effect * outcome EfficientDet :=
  if negb (is_dir checkpoint_path)
     && bool_decide (Some checkpoint_path ∉ _AVAILABLE_WEIGHTS)
  then ([], Raise (ValueError (msg_checkpoint_not_available checkpoint_path)))
  else
    match (if bool_decide (Some checkpoint_path ∈ _AVAILABLE_WEIGHTS)
           then _WEIGHTS_PATHS !! checkpoint_path
           else Some checkpoint_path) with
    | None => ([], Raise (KeyError checkpoint_path))
    | Some checkpoint_path =>
        match load checkpoint_path kwargs with
        | None => ([Load checkpoint_path], Raise (IOError checkpoint_path))
        | Some (model, _) =>
            match num_classes with
            | Some num_classes =>
                let model := set_num_classes model num_classes in
                let model :=
                  set_class_head model
                    (RetinaNetClassifier (config_Wbifpn (config model))
                       (config_D (config model)) num_classes
                       RetinaNetClassifier_prefix) in
                ([Load checkpoint_path;
                  Print "Loading a custom classification head...";
                  NewClassHead (config_Wbifpn (config model))
                    (config_D (config model)) num_classes],
                 Return model)
            | None => ([Load checkpoint_path], Return model)
            end
        end
    end.
End FromPretrained.

End Pretrained.

(** ** Notions the further properties are stated with *)

Module Frame.
Import Tensor Losses Detector.


(** The constructor arguments with another [bidirectional]. *)
Definition with_bidirectional (a : init_args) (b : bool) : init_args :=
  {| arg_num_classes := arg_num_classes a; arg_D := arg_D a;
     arg_bidirectional := b;
     arg_freeze_backbone := arg_freeze_backbone a;
     arg_score_threshold := arg_score_threshold a;
     arg_weights := arg_weights a;
     arg_custom_head_classifier := arg_custom_head_classifier a;
     arg_training_mode := arg_training_mode a |}.

Section Assembled.
Context `{Collaborators}.

(** The detector the constructor assembles from its arguments, a class
    count and a scaling index, before any weights are loaded. *)
Definition assembled (a : init_args) (n D : Z) : EfficientDet :=
  let config := EfficientDetCompudScaling D in
  {| config := config;
     backbone :=
       set_trainable (negb (arg_freeze_backbone a))
         (efficientnet_backbone (config_B config)
            (if is_imagenet (arg_weights a) then Some "imagenet"%string
             else None));
     neck := new_BiFPN (config_Wbifpn config) (config_Dbifpn config) "bifpn/";
     num_classes := n;
     class_head :=
       RetinaNetClassifier (config_Wbifpn config) (config_Dclass config) n
         "class_head/";
     bb_head :=
       RetinaNetBBPredictor (config_Wbifpn config) (config_Dclass config)
         "regress_head/";
     training_mode := arg_training_mode a;
     filter_detections :=
       {| fd_anchors := new_AnchorsConfig;
          fd_score_threshold := arg_score_threshold a |} |}.

(** The four networks of a detector, as [load_weights] sees them. *)
Definition networks (m : EfficientDet) : Backbone * Neck * ClassHead * BBHead :=
  (backbone m, neck m, class_head m, bb_head m).

(** The events that read a checkpoint or load weights from it. *)
Definition touches_checkpoint (e : event) : bool :=
  match e with
  | DownloadFolder _ | JsonLoad _ | BuildModel | LoadWeights _ _ => true
  | _ => false
  end.

End Assembled.

End Frame.

(** ** Further concrete inputs *)

Module Cases.
Import Tensor Losses Detector.



(** Scores for the two anchors of [Scenario.all_ignored], and box targets
    of two ignored anchors for the predictions [Scenario.box_pred]. *)
Definition ignored_scores : tensor3 := [[[0.9; 0.1]; [0.2; 0.3]]].
Definition ignored_boxes : tensor3 :=
  [[[0.1; 0.1; 0.2; 0.2; -1]; [0; 0; 0; 0; -1]]].

(** Loss objects that return 2 whatever they are handed: what they return
    shows in the result of a [call] unless it is divided away. *)
Definition focal_constant : EfficientDetFocalLoss :=
  {| fl_alpha := 0.25; fl_gamma := 1.5; fl_loss_fn := fun _ _ => Some 2 |}.
Definition huber_constant : EfficientDetHuberLoss :=
  {| hl_delta := 1; hl_loss_fn := fun _ _ => Some 2 |}.

Definition args (num_classes : option Z) (weights : option string)
    (custom_head_classifier : bool) : init_args :=
  {| arg_num_classes := num_classes; arg_D := 3; arg_bidirectional := true;
     arg_freeze_backbone := false; arg_score_threshold := 0.1;
     arg_weights := weights;
     arg_custom_head_classifier := custom_head_classifier;
     arg_training_mode := false |}.

(** A loader that knows one checkpoint besides the published one, over a
    file system with the one directory [/ckpt]. *)
#[export] Instance toy_checkpoints : Pretrained.Checkpoints (H0 := Scenario.toy) := {|
  Pretrained.Kwargs := unit;
  Pretrained.Stored := unit;
  Pretrained.is_dir := fun p => bool_decide (p = "/ckpt"%string);
  Pretrained.load := fun _ _ => Some (Scenario.model, tt);
  Pretrained.config_D := fun c => c;
  Pretrained.RetinaNetClassifier_prefix := "class_head/"%string
|}.

End Cases.

(** * Properties *)

Import Tensor Losses.

(** ** Element-wise operations *)

Section Zip.
Context {A B C : Type}.

Lemma vzip_pair (f : A -> B -> C) u v :
  vzip f u v = map (fun p => f p.1 p.2) <$> vzip pair u v.
Proof.
  revert v; induction u as [|a u IH]; intros [|b v]; simpl; try done.
  rewrite IH. by destruct (vzip pair u v).
Qed.

Lemma tzip_pair (f : A -> B -> C) s t :
  tzip f s t = tmap (fun p => f p.1 p.2) <$> tzip pair s t.
Proof.
  revert t; induction s as [|u s IH]; intros [|v t]; simpl; try done.
  rewrite IH, (vzip_pair f). destruct (vzip pair u v); simpl; [|done].
  by destruct (tzip pair s t).
Qed.

Lemma vzip_pair_Some (u : list A) (v : list B) uv :
  vzip pair u v = Some uv -> u = map fst uv /\ v = map snd uv.
Proof.
  revert v uv; induction u as [|a u IH]; intros [|b v] uv; simpl; try done.
  - by intros [= <-].
  - destruct (vzip pair u v) as [r|] eqn:E; simpl; [|done].
    intros [= <-]. destruct (IH _ _ E) as [-> ->]. done.
Qed.

Lemma tzip_pair_Some (s : list (list A)) (t : list (list B)) st :
  tzip pair s t = Some st -> s = tmap fst st /\ t = tmap snd st.
Proof.
  revert t st; induction s as [|u s IH]; intros [|v t] st; simpl; try done.
  - by intros [= <-].
  - destruct (vzip pair u v) as [r|] eqn:E; simpl; [|done].
    destruct (tzip pair s t) as [rs|] eqn:Es; simpl; [|done].
    intros [= <-]. destruct (vzip_pair_Some _ _ _ E) as [-> ->].
    destruct (IH _ _ Es) as [-> ->]. done.
Qed.
End Zip.

Lemma tmap_tmap {A B C} (f : A -> B) (g : B -> C) (t : list (list A)) :
  tmap g (tmap f t) = tmap (fun x => g (f x)) t.
Proof.
  unfold tmap. rewrite map_map. apply map_ext. intros u. apply map_map.
Qed.

Lemma tmap_ext {A B} (f g : A -> B) (t : list (list A)) :
  (forall x, f x = g x) -> tmap f t = tmap g t.
Proof. intros E. unfold tmap. apply map_ext. intros u. by apply map_ext. Qed.

Lemma vzip_same {X A B C} (f : A -> B -> C) (g : X -> A) (h : X -> B) w :
  vzip f (map g w) (map h w) = Some (map (fun x => f (g x) (h x)) w).
Proof. induction w as [|x w IH]; simpl; [done|]. by rewrite IH. Qed.

Lemma tzip_same {X A B C} (f : A -> B -> C) (g : X -> A) (h : X -> B) st :
  tzip f (tmap g st) (tmap h st) = Some (tmap (fun x => f (g x) (h x)) st).
Proof.
  induction st as [|w st IH]; simpl; [done|].
  fold (tmap g st) (tmap h st). by rewrite vzip_same, IH.
Qed.

Lemma select_same {X A} (c : X -> bool) (g h : X -> A) st :
  select (tmap c st) (tmap g st) (tmap h st)
  = Some (tmap (fun x => if c x then g x else h x) st).
Proof.
  unfold select. rewrite tzip_same. simpl. by rewrite tzip_same.
Qed.

Lemma tzip_tmap {A A' B B' C} (f : A' -> B' -> C) (g : A -> A') (h : B -> B')
    s t :
  tzip f (tmap g s) (tmap h t) = tzip (fun a b => f (g a) (h b)) s t.
Proof.
  rewrite (tzip_pair f), (tzip_pair (fun a b => f (g a) (h b))).
  destruct (tzip pair s t) as [st|] eqn:E.
  - destruct (tzip_pair_Some _ _ _ E) as [-> ->].
    rewrite !tmap_tmap, tzip_same. simpl. by rewrite tmap_tmap.
  - destruct (tzip pair (tmap g s) (tmap h t)) as [st|] eqn:E'; [|done].
    exfalso. revert t st E E'. induction s as [|u s IH]; intros [|v t] st; simpl;
      try done.
    fold (tmap g s) (tmap h t).
    destruct (vzip pair u v) as [r|] eqn:Ev; simpl.
    + destruct (vzip_pair_Some _ _ _ Ev) as [-> ->].
      rewrite !map_map, vzip_same. simpl.
      destruct (tzip pair s t) eqn:Et; [done|]. intros _.
      destruct (tzip pair (tmap g s) (tmap h t)) eqn:Et'; [|done].
      intros _. by eapply IH.
    + intros _. destruct (vzip pair (map g u) (map h v)) as [r|] eqn:Ev'; [|done].
      exfalso. clear -Ev Ev'. revert v r Ev Ev'.
      induction u as [|a u IHu]; intros [|b v] r; simpl; try done.
      destruct (vzip pair u v) eqn:E1; [done|]. intros _.
      destruct (vzip pair (map g u) (map h v)) eqn:E2; [|done].
      intros _. by eapply IHu.
Qed.

(** ** focal_loss *)

Lemma clip_clip_into lo hi p : lo <= hi -> clip lo hi p = Spec.clip_into lo hi p.
Proof.
  intros Hle. unfold clip, Spec.clip_into, Rmax, Rmin.
  repeat (destruct (Rle_dec _ _) || destruct (Rlt_dec _ _)); lra.
Qed.

Lemma clip_bounds lo hi p : lo <= hi -> lo <= clip lo hi p <= hi.
Proof.
  intros Hle. unfold clip, Rmax, Rmin.
  repeat destruct (Rle_dec _ _); lra.
Qed.

(** After clipping, both [pt] and [1 - pt] are positive: [tf.pow] and
    [tf.math.log] are only ever applied inside their real domain. *)
Lemma focal_domain (p : R) :
  let q := clip 1e-6 (1 - 1e-6) p in
  0 < q /\ 0 < 1 - q /\ 0 < 1 - (1 - q).
Proof.
  intros q. pose proof (clip_bounds 1e-6 (1 - 1e-6) p ltac:(lra)) as Hq.
  fold q in Hq. lra.
Qed.

Lemma focal_loss_unreduced {T} (k : tensor2 -> option T)
    (y_true y_pred : tensor2) (gamma alpha : R) (from_logits : bool) :
  (alphas ← select (equal y_true 1)
             (tmap (fun o => o * alpha) (ones_like y_true))
             (tmap (fun a => 1 - a)
                (tmap (fun o => o * alpha) (ones_like y_true)));
   pt ← select (equal y_true 1)
          (clip_by_value (if from_logits then tmap sigmoid y_pred else y_pred)
             1e-6 (1 - 1e-6))
          (tmap (fun p => 1 - p)
             (clip_by_value
                (if from_logits then tmap sigmoid y_pred else y_pred)
                1e-6 (1 - 1e-6)));
   weighted ← tzip Rmult (tmap Ropp alphas)
                (tmap (fun q => pow (1 - q) gamma) pt);
   loss ← tzip Rmult weighted (tmap log pt);
   k loss)
  = tzip (Spec.focal_entry gamma alpha from_logits) y_true y_pred ≫= k.
Proof.
  set (pre := fun p : R => if from_logits then sigmoid p else p).
  assert (Hpre : (if from_logits then tmap sigmoid y_pred else y_pred)
                 = tmap pre y_pred).
  { unfold pre. destruct from_logits; [done|].
    unfold tmap. rewrite <- (map_id y_pred) at 1. apply map_ext.
    intros u. by rewrite map_id. }
  rewrite Hpre. unfold clip_by_value, ones_like, equal.
  rewrite !tmap_tmap, select_same. cbn [mbind option_bind].
  destruct (tzip pair y_true y_pred) as [st|] eqn:E.
  - destruct (tzip_pair_Some _ _ _ E) as [-> ->].
    rewrite !tmap_tmap, select_same. cbn [mbind option_bind].
    rewrite !tmap_tmap, tzip_same. cbn [mbind option_bind].
    rewrite ?tmap_tmap, !tzip_same. cbn [mbind option_bind].
    f_equal. apply tmap_ext.
    intros [y p]. cbn [fst snd].
    unfold Spec.focal_entry, pre, sigmoid, pow, log.
    rewrite <- clip_clip_into by lra.
    destruct from_logits; rewrite (bool_decide_decide (y = 1));
      destruct (decide (y = 1)); cbn; lra.
  - rewrite (tzip_pair (Spec.focal_entry _ _ _)), E.
    cbn [fmap option_fmap option_map mbind option_bind].
    unfold select. rewrite tzip_same. cbn [mbind option_bind].
    by rewrite tzip_tmap, (tzip_pair _ y_true y_pred), E.
Qed.

(** The reduction that closes [focal_loss]. *)
Lemma focal_loss_entries (y_true y_pred : tensor2) (gamma alpha : option R)
    (from_logits : option bool) (reduction : option string) :
  focal_loss y_true y_pred gamma alpha from_logits reduction
  = (fun loss =>
       if bool_decide (default "sum"%string reduction = "mean"%string)
       then Scalar (reduce_mean2 loss)
       else if bool_decide (default "sum"%string reduction = "sum"%string)
       then Scalar (reduce_sum2 loss)
       else PerEntry loss) <$>
      tzip (Spec.focal_entry (default 1.5 gamma) (default 0.25 alpha)
              (default false from_logits)) y_true y_pred.
Proof.
  unfold focal_loss. cbv zeta. rewrite focal_loss_unreduced.
  by destruct (tzip _ y_true y_pred).
Qed.

(** C1.  For a target tensor and a score tensor of one shape, [focal_loss]
    computes, entry by entry, [-alpha_t * (1 - p_t)^gamma * log(p_t)]: the
    score goes through the sigmoid when [from_logits] is set and is then
    clipped into [[1e-6, 1 - 1e-6]]; [p_t] is the score where the label is 1
    and its complement elsewhere, [alpha_t] is [alpha] where the label is 1
    and [1 - alpha] elsewhere; [gamma] and [alpha] default to 1.5 and 0.25.
    The default reduction sums these entries.  Tensors of different shapes
    are an error on both sides. *)
Theorem focal_loss_formula (y_true y_pred : tensor2) (gamma alpha : option R)
    (from_logits : option bool) :
  focal_loss y_true y_pred gamma alpha from_logits (Some "none"%string)
  = PerEntry <$>
      tzip (Spec.focal_entry (default 1.5 gamma) (default 0.25 alpha)
              (default false from_logits)) y_true y_pred
  /\ focal_loss y_true y_pred gamma alpha from_logits None
     = (fun loss => Scalar (reduce_sum2 loss)) <$>
         tzip (Spec.focal_entry (default 1.5 gamma) (default 0.25 alpha)
                 (default false from_logits)) y_true y_pred.
Proof. split; by rewrite focal_loss_entries. Qed.

(** ** The [from_logits] flag *)

Lemma sigmoid_half_bounds : 1 / 2 < sigmoid (1 / 2) < 1.
Proof.
  unfold sigmoid.
  assert (0 < exp (- (1 / 2)) < 1) as [Hpos Hlt].
  { split; [apply exp_pos|].
    pose proof (exp_increasing (- (1 / 2)) 0 ltac:(lra)) as Hexp.
    by rewrite exp_0 in Hexp. }
  set (d := 1 + exp (- (1 / 2))) in *.
  assert (/ d * d = 1) as Hd by (apply Rinv_l; unfold d; lra).
  assert (0 < / d) as Hi by (apply Rinv_0_lt_compat; unfold d; lra).
  unfold Rdiv, d in *. nra.
Qed.

Lemma sigmoid_0 : sigmoid 0 = 1 / 2.
Proof. unfold sigmoid. rewrite Ropp_0, exp_0. lra. Qed.

(** The modulated cross-entropy strictly decreases in the probability of
    the true class. *)
Lemma focal_term_decreasing (gamma p q : R) :
  0 < gamma -> 0 < p < q -> q < 1 ->
  Rpower (1 - q) gamma * - ln q < Rpower (1 - p) gamma * - ln p.
Proof.
  intros Hg [Hp Hpq] Hq.
  assert (Rpower (1 - q) gamma < Rpower (1 - p) gamma) as H1
    by (apply Rlt_Rpower_l; lra).
  assert (0 < Rpower (1 - q) gamma) as H2 by apply exp_pos.
  assert (ln p < ln q) as H3 by (apply ln_increasing; lra).
  assert (ln q < 0) as H4 by (rewrite <- ln_1; apply ln_increasing; lra).
  nra.
Qed.

(** C4, as stated, fails: with the one label 1 and the input [sigmoid 0],
    setting [from_logits] applies the sigmoid a second time and the two
    losses differ. *)
Lemma from_logits_not_invariant :
  focal_loss [[1]] (tmap sigmoid [[0]]) None None (Some true) None
  <> focal_loss [[1]] (tmap sigmoid [[0]]) None None (Some false) None.
Proof.
  rewrite !focal_loss_entries.
  change (tmap sigmoid [[0]]) with [[sigmoid 0]]. rewrite sigmoid_0.
  cbn [tzip vzip mbind option_bind fmap option_fmap option_map default].
  unfold reduce_sum2. cbn [concat app sum_list foldr].
  unfold Spec.focal_entry. fold (sigmoid (1 / 2)).
  destruct (decide (1 = 1)) as [_|]; [|done].
  pose proof sigmoid_half_bounds as [Hlo Hhi]. intros [= E]. revert E.
  set (q1 := Spec.clip_into 1e-6 (1 - 1e-6) (sigmoid (1 / 2))).
  set (q0 := Spec.clip_into 1e-6 (1 - 1e-6) (1 / 2)).
  assert (q0 = 1 / 2) as Hq0.
  { unfold q0, Spec.clip_into. repeat destruct (Rlt_dec _ _); lra. }
  assert (1 / 2 < q1 < 1) as Hq1.
  { unfold q1, Spec.clip_into. repeat destruct (Rlt_dec _ _); lra. }
  pose proof (focal_term_decreasing 1.5 q0 q1 ltac:(lra) ltac:(lra) ltac:(lra)).
  lra.
Qed.

(** C4, amended.  Setting [from_logits] amounts to applying the sigmoid to
    the input beforehand: the loss of the logits [x] with the flag set is
    the loss of the probabilities [sigmoid x] with the flag cleared. *)
Theorem from_logits_is_sigmoid (y_true x : tensor2) (gamma alpha : option R)
    (reduction : option string) :
  focal_loss y_true x gamma alpha (Some true) reduction
  = focal_loss y_true (tmap sigmoid x) gamma alpha (Some false) reduction.
Proof. unfold focal_loss. cbn [default]. reflexivity. Qed.

(** ** huber_loss *)

Lemma huber_branches_agree (delta e : R) :
  Rabs e = delta -> 0.5 * e ^ 2 = delta * (Rabs e - 0.5 * delta).
Proof.
  intros <-. unfold Rabs. destruct (Rcase_abs e); lra.
Qed.

Lemma huber_entry_closed_form (delta e : R) :
  Spec.huber_entry delta e
  = (fun x => ((Rabs x + delta - Rabs (Rabs x - delta)) / 2)
              * (Rabs x - ((Rabs x + delta - Rabs (Rabs x - delta)) / 2) / 2)) e.
Proof.
  unfold Spec.huber_entry. cbv beta.
  destruct (Rlt_dec (Rabs e) delta) as [Hlt|Hge].
  - rewrite (Rabs_left (Rabs e - delta)) by lra.
    unfold Rabs. destruct (Rcase_abs e); lra.
  - rewrite (Rabs_right (Rabs e - delta)) by lra. lra.
Qed.

Lemma huber_entry_continuous (delta : R) : continuity (Spec.huber_entry delta).
Proof.
  intros e.
  apply continuity_pt_locally_ext
    with (a := 1)
         (f := fun x => ((Rabs x + delta - Rabs (Rabs x - delta)) / 2)
              * (Rabs x - ((Rabs x + delta - Rabs (Rabs x - delta)) / 2) / 2)).
  - lra.
  - intros x _. symmetry. apply huber_entry_closed_form.
  - reg.
Qed.

Lemma tzip_fmap {A B C D} (f : A -> B -> C) (g : C -> D) s t :
  tmap g <$> tzip f s t = tzip (fun a b => g (f a b)) s t.
Proof.
  rewrite (tzip_pair f), (tzip_pair (fun a b => g (f a b))).
  destruct (tzip pair s t); [|done]. cbn. by rewrite tmap_tmap.
Qed.

Lemma huber_loss_unreduced {T} (k : tensor2 -> option T)
    (y_true y_pred : tensor2) (delta : R) :
  (error ← tzip Rminus y_true y_pred;
   loss ← select (tmap (fun e => bool_decide (Rabs e < delta)) error)
            (tmap (fun e => 0.5 * square e) error)
            (tmap (fun e => delta * (Rabs e - 0.5 * delta)) error);
   k loss)
  = tzip (fun t p => Spec.huber_entry delta (t - p)) y_true y_pred ≫= k.
Proof.
  rewrite <- (tzip_fmap Rminus (Spec.huber_entry delta)).
  destruct (tzip Rminus y_true y_pred) as [error|]; [|done].
  cbn [mbind option_bind fmap option_fmap option_map].
  rewrite select_same. cbn [mbind option_bind]. f_equal. apply tmap_ext.
  intros e. unfold Spec.huber_entry, square.
  rewrite (bool_decide_decide (Rabs e < delta)).
  destruct (decide (Rabs e < delta)), (Rlt_dec (Rabs e) delta); lra.
Qed.

Lemma tzip_row_lengths {A B C} (f : A -> B -> C) s t r (n : nat) :
  tzip f s t = Some r ->
  Forall (fun u => length u = n) s -> Forall (fun w => length w = n) r.
Proof.
  rewrite (tzip_pair f). destruct (tzip pair s t) as [st|] eqn:E; [|done].
  intros [= <-]. destruct (tzip_pair_Some _ _ _ E) as [-> _].
  unfold tmap. rewrite !Forall_map. intros HF.
  eapply Forall_impl; [exact HF|]. intros w. cbn. by rewrite !length_map.
Qed.

(** The per-anchor mean and the reduction that close [huber_loss]. *)
Lemma huber_loss_entries (y_true y_pred : tensor2) (delta : option R)
    (reduction : option string) :
  huber_loss y_true y_pred delta reduction
  = (fun loss =>
       if bool_decide (default "sum"%string reduction = "mean"%string)
       then Scalar (reduce_mean1 (reduce_mean_last loss))
       else if bool_decide (default "sum"%string reduction = "sum"%string)
       then Scalar (reduce_sum1 (reduce_mean_last loss))
       else PerAnchor (reduce_mean_last loss)) <$>
      tzip (fun t p => Spec.huber_entry (default 1.0 delta) (t - p))
           y_true y_pred.
Proof.
  unfold huber_loss. cbv zeta. rewrite huber_loss_unreduced.
  by destruct (tzip _ y_true y_pred).
Qed.

(** C5.  On anchors of four coordinates, [huber_loss] takes the error
    [e = target - predicted] of every coordinate to [0.5 * e^2] when
    [|e| < delta] and to [delta * (|e| - 0.5 * delta)] otherwise, with
    [delta] defaulting to 1.0; it averages the four values of an anchor and,
    under the default reduction, sums the averages over the anchors.  The
    two branches take the same value where [|e| = delta], and the
    per-coordinate loss is continuous. *)
Theorem huber_loss_formula (y_true y_pred : tensor2) (delta : option R) :
  Forall (fun anchor => length anchor = 4%nat) y_true ->
  huber_loss y_true y_pred delta None
  = (fun loss =>
       Scalar (sum_list (map (fun anchor => sum_list anchor / 4) loss))) <$>
      tzip (fun t p => Spec.huber_entry (default 1.0 delta) (t - p))
           y_true y_pred
  /\ (forall e, Rabs e = default 1.0 delta ->
        0.5 * e ^ 2
        = default 1.0 delta * (Rabs e - 0.5 * default 1.0 delta))
  /\ continuity (Spec.huber_entry (default 1.0 delta)).
Proof.
  intros H4. split; [|split].
  - rewrite huber_loss_entries.
    destruct (tzip _ y_true y_pred) as [loss|] eqn:E; [|done].
    cbn [fmap option_fmap option_map default].
    rewrite bool_decide_eq_false_2 by done.
    rewrite bool_decide_eq_true_2 by done.
    do 2 f_equal. unfold reduce_sum1, reduce_mean_last. f_equal.
    apply (tzip_row_lengths _ _ _ _ 4 E) in H4. clear E.
    induction H4 as [|w loss Hw _ IH]; [done|]. cbn [map]. rewrite IH.
    f_equal. unfold reduce_mean1. rewrite Hw. simpl. lra.
  - intros e. apply huber_branches_agree.
  - apply huber_entry_continuous.
Qed.

Lemma huber_loss_formula_witness :
  Forall (fun anchor => length anchor = 4%nat) [[0.1; 0.1; 0.2; 0.2]]
  /\ huber_loss [[0.1; 0.1; 0.2; 0.2]] [[0; 0; 0; 0]] None None
     = (fun loss =>
          Scalar (sum_list (map (fun anchor => sum_list anchor / 4) loss))) <$>
         tzip (fun t p => Spec.huber_entry 1.0 (t - p))
              [[0.1; 0.1; 0.2; 0.2]] [[0; 0; 0; 0]].
Proof.
  split.
  - repeat constructor.
  - apply (huber_loss_formula [[0.1; 0.1; 0.2; 0.2]] [[0; 0; 0; 0]] None).
    repeat constructor.
Defined.

(** ** Anchor-state masking *)

Section Gather.
Context {A : Type}.
Implicit Types (mask : list bool) (row : list A) (params : list (list A)).

Lemma where_row_pick mask row (pre : list A) :
  length mask = length row ->
  Forall2 (fun j y => (pre ++ row) !! j = Some y)
          (where_row (length pre) mask) (Spec.pick mask row).
Proof.
  revert row pre. induction mask as [|b mask IH]; intros [|x row] pre Hlen;
    simplify_eq/=; [constructor|].
  assert (Forall2 (fun j y => (pre ++ x :: row) !! j = Some y)
            (where_row (S (length pre)) mask) (Spec.pick mask row)) as Hrest.
  { specialize (IH row (pre ++ [x]) Hlen).
    rewrite length_app, Nat.add_1_r, <- app_assoc in IH. exact IH. }
  destruct b; [|done]. constructor; [|done].
  by apply list_lookup_middle.
Qed.

Lemma where_from_pick (m : list (list bool)) params (pre : list (list A)) :
  Forall2 (fun mask row => length mask = length row) m params ->
  Forall2 (fun (ij : nat * nat) y =>
             ((pre ++ params) !! ij.1 ≫= fun row => row !! ij.2) = Some y)
          (where_from (length pre) m) (concat (zip_with Spec.pick m params)).
Proof.
  intros Hshape. revert pre.
  induction Hshape as [|mask row m params Hlen _ IH]; intros pre;
    cbn [where_from zip_with concat]; [constructor|].
  apply Forall2_app.
  - rewrite Forall2_fmap_l.
    eapply Forall2_impl; [apply (where_row_pick mask row []), Hlen|].
    intros j y Hj. unfold compose. cbn beta in Hj |- *. cbn [fst snd].
    rewrite list_lookup_middle by done. exact Hj.
  - specialize (IH (pre ++ [row])).
    rewrite length_app, Nat.add_1_r, <- app_assoc in IH. exact IH.
Qed.

Lemma gather_where (m : list (list bool)) params :
  Forall2 (fun mask row => length mask = length row) m params ->
  gather_nd params (where_true m) = Some (concat (zip_with Spec.pick m params)).
Proof.
  intros Hshape. unfold gather_nd, where_true. apply mapM_Some.
  apply (where_from_pick m params []), Hshape.
Qed.

Lemma where_true_count (m : list (list bool)) params :
  Forall2 (fun mask row => length mask = length row) m params ->
  length (where_true m) = length (concat (zip_with Spec.pick m params)).
Proof. intros Hshape. eapply length_mapM, gather_where, Hshape. Qed.
End Gather.

Section Participating.
Context {A B C : Type} (k : A -> bool) (g : A -> C).

Lemma pick_participating (ts : list A) (ps : list B) :
  length ts = length ps ->
  Spec.pick (map k ts) (map g ts)
  = map (fun a => g a.1) (List.filter (fun a => k a.1) (zip ts ps))
  /\ Spec.pick (map k ts) ps
     = map snd (List.filter (fun a => k a.1) (zip ts ps)).
Proof.
  revert ps. induction ts as [|t ts IH]; intros [|p ps] Hlen;
    simplify_eq/=; [done|].
  destruct (IH ps Hlen) as [-> ->]. by destruct (k t).
Qed.

Lemma gathered_participating (y_true : list (list A)) (y_pred : list (list B)) :
  Forall2 (fun ts ps => length ts = length ps) y_true y_pred ->
  concat (zip_with Spec.pick (tmap k y_true) (tmap g y_true))
  = map (fun a => g a.1)
        (List.filter (fun a => k a.1) (concat (zip_with zip y_true y_pred)))
  /\ concat (zip_with Spec.pick (tmap k y_true) y_pred)
     = map snd
         (List.filter (fun a => k a.1) (concat (zip_with zip y_true y_pred))).
Proof.
  induction 1 as [|ts ps y_true y_pred Hlen _ [IHt IHp]]; [done|].
  cbn [tmap map zip_with concat]. fold (tmap k y_true) (tmap g y_true).
  rewrite IHt, IHp, !List.filter_app, !map_app.
  by destruct (pick_participating ts ps Hlen) as [-> ->].
Qed.
End Participating.

Lemma mapM_total {A B} (f : A -> option B) (g : A -> B) (l : list A) :
  Forall (fun x => f x = Some (g x)) l -> mapM f l = Some (map g l).
Proof.
  intros Hl. apply mapM_Some. apply Forall2_fmap_r, Forall_Forall2_diag, Hl.
Qed.

Lemma index_last_states (y_true : tensor3) :
  Forall (Forall (fun a : list R => a <> [])) y_true ->
  index_last y_true = Some (tmap (fun a => default 0 (last a)) y_true).
Proof.
  intros Hne. unfold index_last, tmap. apply mapM_total.
  eapply Forall_impl; [exact Hne|]. intros ts Hts. cbn beta.
  apply mapM_total. eapply Forall_impl; [exact Hts|]. intros a Ha. cbn beta.
  destruct (last a) eqn:E; [done|]. by apply last_None in E.
Qed.

Lemma same_shape_tmap {A B C} (f : A -> B) (g : A -> C) (t : list (list A)) :
  Forall2 (fun u v => length u = length v) (tmap f t) (tmap g t).
Proof.
  unfold tmap. apply Forall2_fmap, Forall_Forall2_diag, Forall_true.
  intros u. by rewrite !length_map.
Qed.

Lemma same_shape_mask {A B C} (f : A -> B) (s : list (list A)) (t : list (list C)) :
  Forall2 (fun u v => length u = length v) s t ->
  Forall2 (fun u v => length u = length v) (tmap f s) t.
Proof.
  intros Hst. unfold tmap. apply Forall2_fmap_l.
  eapply Forall2_impl; [exact Hst|]. intros u v. cbn. by rewrite length_map.
Qed.

(** What the two [call] methods have in common: the anchors that pass
    [keep] are gathered, targets and predictions alike, and the number of
    positive anchors is counted. *)
Lemma gather_participating (keep : R -> bool) (y_true y_pred : tensor3) :
  Spec.co_indexed y_true y_pred ->
  index_last y_true = Some (tmap (fun a => default 0 (last a)) y_true)
  /\ gather_nd (drop_last y_true)
       (where_true (tmap keep (tmap (fun a => default 0 (last a)) y_true)))
     = Some (map Spec.targets (Spec.participating keep y_true y_pred))
  /\ gather_nd y_pred
       (where_true (tmap keep (tmap (fun a => default 0 (last a)) y_true)))
     = Some (map Spec.predictions (Spec.participating keep y_true y_pred))
  /\ length (where_true (tmap keep (tmap (fun a => default 0 (last a)) y_true)))
     = length (Spec.participating keep y_true y_pred).
Proof.
  intros [Hshape Hne]. split; [by apply index_last_states|].
  rewrite tmap_tmap.
  destruct (gathered_participating
              (fun a : list R => keep (default 0 (last a)))
              (removelast (A:=R)) y_true y_pred Hshape) as [Ht Hp].
  split; [|split].
  - unfold drop_last. rewrite gather_where by apply same_shape_tmap.
    by rewrite Ht.
  - rewrite gather_where by apply same_shape_mask, Hshape. by rewrite Hp.
  - rewrite (where_true_count _ y_pred) by apply same_shape_mask, Hshape.
    rewrite Hp. by rewrite length_map.
Qed.

(** C3.  For co-indexed targets and predictions, the focal loss hands its
    loss object exactly the anchors whose state is not -1 (so the states 0
    and 1 both take part), targets and predictions alike and in their
    order, and divides what the loss object sums up by
    [max(1, number of anchors with state 1)]. *)
Theorem focal_call_masking (self : EfficientDetFocalLoss)
    (y_true y_pred : tensor3) :
  Spec.co_indexed y_true y_pred ->
  EfficientDetFocalLoss_call self y_true y_pred
  = (loss ← fl_loss_fn self
       (map Spec.targets
          (Spec.participating (fun s => negb (Spec.ignored s)) y_true y_pred))
       (map Spec.predictions
          (Spec.participating (fun s => negb (Spec.ignored s)) y_true y_pred));
     Some (loss /
           Rmax 1 (INR (length (Spec.participating Spec.positive
                                  y_true y_pred)))))
  /\ (forall a,
        In a (Spec.participating (fun s => negb (Spec.ignored s)) y_true y_pred)
        <-> In a (Spec.anchors y_true y_pred) /\ Spec.state a <> -1).
Proof.
  intros Hco. split.
  - unfold EfficientDetFocalLoss_call.
    destruct (gather_participating (fun s => negb (Spec.ignored s))
                y_true y_pred Hco) as (-> & Ht & Hp & _).
    destruct (gather_participating Spec.positive y_true y_pred Hco)
      as (_ & _ & _ & Hn).
    cbn [mbind option_bind]. unfold equal.
    unfold Spec.ignored, Spec.positive in *. rewrite Ht, Hp, Hn. done.
  - intros a. unfold Spec.participating. rewrite List.filter_In.
    unfold Spec.ignored. rewrite negb_true_iff, bool_decide_eq_false. done.
Qed.

Lemma focal_call_masking_witness :
  Spec.co_indexed Scenario.y_true Scenario.y_pred
  /\ EfficientDetFocalLoss_call Scenario.focal Scenario.y_true Scenario.y_pred
     = (loss ← fl_loss_fn Scenario.focal
          (map Spec.targets
             (Spec.participating (fun s => negb (Spec.ignored s))
                Scenario.y_true Scenario.y_pred))
          (map Spec.predictions
             (Spec.participating (fun s => negb (Spec.ignored s))
                Scenario.y_true Scenario.y_pred));
        Some (loss /
              Rmax 1 (INR (length (Spec.participating Spec.positive
                                     Scenario.y_true Scenario.y_pred))))).
Proof.
  assert (Spec.co_indexed Scenario.y_true Scenario.y_pred) as Hco.
  { split; repeat constructor; discriminate. }
  exact (conj Hco
           (proj1 (focal_call_masking Scenario.focal Scenario.y_true
                     Scenario.y_pred Hco))).
Defined.

(** As written, the initialiser of the Huber loss never returns an object:
    the statements about [call] below are about any object with the two
    fields. *)
Lemma EfficientDetHuberLoss_init_raises (Huber : R -> loss_object)
    (delta : option R) :
  EfficientDetHuberLoss_init Huber delta
  = inl (AttributeError "_EfficientDetHuberLoss__init").
Proof. reflexivity. Qed.

(** C2.  For co-indexed targets and predictions, the Huber loss hands its
    loss object exactly the anchors whose state is 1 -- anchors of state 0
    and of state -1 are left out alike -- divides what the loss object sums
    up by [max(1, number of anchors with state 1) * 4] and multiplies the
    quotient by 50. *)
Theorem huber_call_masking (self : EfficientDetHuberLoss)
    (y_true y_pred : tensor3) :
  Spec.co_indexed y_true y_pred ->
  EfficientDetHuberLoss_call self y_true y_pred
  = (loss ← hl_loss_fn self
       (map Spec.targets (Spec.participating Spec.positive y_true y_pred))
       (map Spec.predictions (Spec.participating Spec.positive y_true y_pred));
     Some (50 * (loss /
                 (Rmax 1 (INR (length (Spec.participating Spec.positive
                                         y_true y_pred))) * 4))))
  /\ (forall a,
        In a (Spec.participating Spec.positive y_true y_pred)
        <-> In a (Spec.anchors y_true y_pred) /\ Spec.state a = 1).
Proof.
  intros Hco. split.
  - unfold EfficientDetHuberLoss_call.
    destruct (gather_participating Spec.positive y_true y_pred Hco)
      as (-> & Ht & Hp & Hn).
    cbn [mbind option_bind]. unfold equal.
    unfold Spec.positive in *. rewrite Ht, Hp, Hn. done.
  - intros a. unfold Spec.participating. rewrite List.filter_In.
    unfold Spec.positive. rewrite bool_decide_eq_true. done.
Qed.

Lemma huber_call_masking_witness :
  Spec.co_indexed Scenario.box_true Scenario.box_pred
  /\ EfficientDetHuberLoss_call Scenario.huber Scenario.box_true
       Scenario.box_pred
     = (loss ← hl_loss_fn Scenario.huber
          (map Spec.targets
             (Spec.participating Spec.positive Scenario.box_true
                Scenario.box_pred))
          (map Spec.predictions
             (Spec.participating Spec.positive Scenario.box_true
                Scenario.box_pred));
        Some (50 * (loss /
                    (Rmax 1 (INR (length (Spec.participating Spec.positive
                                            Scenario.box_true
                                            Scenario.box_pred))) * 4)))).
Proof.
  assert (Spec.co_indexed Scenario.box_true Scenario.box_pred) as Hco.
  { split; repeat constructor; discriminate. }
  exact (conj Hco
           (proj1 (huber_call_masking Scenario.huber Scenario.box_true
                     Scenario.box_pred Hco))).
Defined.

(** ** No positive anchor *)

Lemma where_from_none {A} (i : nat) (t : list (list A)) :
  where_from i (tmap (fun _ => false) t) = [].
Proof.
  revert i. induction t as [|row t IH]; intros i; [done|].
  cbn [tmap map where_from]. fold (tmap (fun _ : A => false) t). rewrite IH.
  rewrite app_nil_r. generalize 0%nat.
  induction row as [|x row IHrow]; intros j; [done|]. cbn. apply IHrow.
Qed.

Lemma index_last_all_ignored (y_true : tensor3) :
  Forall (Forall (fun a : list R => last a = Some (-1))) y_true ->
  index_last y_true = Some (tmap (fun _ => -1) y_true).
Proof.
  intros Hall. unfold index_last, tmap. apply mapM_total.
  eapply Forall_impl; [exact Hall|]. intros ts Hts. cbn beta.
  by apply mapM_total.
Qed.

Lemma co_shaped_co_indexed (y_true y_pred : tensor3) :
  Spec.co_shaped y_true y_pred -> Spec.co_indexed y_true y_pred.
Proof.
  intros Hshaped. split.
  - eapply Forall2_impl; [exact Hshaped|]. intros ts ps.
    apply Forall2_length.
  - induction Hshaped as [|ts ps y_true y_pred Hrow _ IH];
      constructor; [|done].
    induction Hrow as [|a p ts ps Hlen _ IHrow]; constructor; [|done].
    intros ->. discriminate Hlen.
Qed.

(** No anchor takes part when every anchor has one and the same state and
    that state does not pass [keep]. *)
Lemma participating_none (keep : R -> bool) (c : R) (y_true y_pred : tensor3) :
  keep c = false ->
  Forall (Forall (fun a : list R => last a = Some c)) y_true ->
  Spec.participating keep y_true y_pred = [].
Proof.
  intros Hkeep Hall. unfold Spec.participating, Spec.anchors.
  revert y_pred.
  induction Hall as [|ts y_true Hts _ IH]; intros [|ps y_pred]; try done.
  cbn [zip_with concat]. rewrite List.filter_app, IH, app_nil_r. clear IH.
  revert ps. induction Hts as [|a ts Ha _ IHts]; intros [|p ps]; try done.
  cbn [zip_with List.filter]. unfold Spec.state at 1. cbn [fst].
  rewrite Ha. cbn [default]. unfold Datatypes.id. rewrite Hkeep. apply IHts.
Qed.

(** C6.  On targets and predictions of the shapes of the contract, when
    every anchor of the batch is ignored (state -1) nothing is gathered and
    no anchor is positive, yet the normaliser is not the count 0 but its
    floor 1 (times 4 for the Huber loss).  Each loss returns a value: what
    its loss object makes of the empty gather, divided by 1 for the focal
    loss, divided by 4 and scaled by 50 for the Huber loss.  With a loss
    object that is non-negative on the empty gather -- a sum over no
    anchors is 0 -- the value returned is non-negative. *)
Theorem losses_all_ignored (focal : EfficientDetFocalLoss)
    (huber : EfficientDetHuberLoss)
    (y_true y_pred box_true box_pred : tensor3) (lf lh : R) :
  Spec.co_shaped y_true y_pred ->
  Forall (Forall (fun a : list R => last a = Some (-1))) y_true ->
  Spec.co_shaped box_true box_pred ->
  Forall (Forall (fun a : list R => last a = Some (-1))) box_true ->
  fl_loss_fn focal [] [] = Some lf -> 0 <= lf ->
  hl_loss_fn huber [] [] = Some lh -> 0 <= lh ->
  (Spec.participating (fun s => negb (Spec.ignored s)) y_true y_pred = []
   /\ Spec.participating Spec.positive y_true y_pred = []
   /\ Rmax 1 (INR (length (Spec.participating Spec.positive y_true y_pred)))
      = 1
   /\ exists r,
        EfficientDetFocalLoss_call focal y_true y_pred = Some r
        /\ r = lf / 1 /\ 0 <= r)
  /\ (Spec.participating Spec.positive box_true box_pred = []
      /\ Rmax 1 (INR (length (Spec.participating Spec.positive
                                box_true box_pred))) * 4
         = 4
      /\ exists r,
           EfficientDetHuberLoss_call huber box_true box_pred = Some r
           /\ r = 50 * (lh / 4) /\ 0 <= r).
Proof.
  intros Hshaped Hall Hshaped' Hall' Hf Hlf Hh Hlh.
  assert (Rmax 1 (INR 0) = 1) as Hfloor.
  { simpl. unfold Rmax. destruct (Rle_dec 1 0); lra. }
  assert (forall t p,
            Forall (Forall (fun a : list R => last a = Some (-1))) t ->
            Spec.participating Spec.positive t p = []) as Hpositive.
  { intros t p. apply participating_none.
    apply bool_decide_eq_false. lra. }
  assert (Spec.participating (fun s => negb (Spec.ignored s)) y_true y_pred
          = []) as Hkept.
  { apply (participating_none _ (-1)); [|done].
    unfold Spec.ignored. by rewrite bool_decide_eq_true_2. }
  split.
  - split; [exact Hkept|]. split; [by apply Hpositive|].
    split; [by rewrite Hpositive|].
    exists (lf / 1). split; [|split; [done|lra]].
    pose proof (co_shaped_co_indexed _ _ Hshaped) as Hco.
    unfold EfficientDetFocalLoss_call.
    destruct (gather_participating (fun s => negb (Spec.ignored s))
                y_true y_pred Hco) as (-> & Ht & Hp & _).
    destruct (gather_participating Spec.positive y_true y_pred Hco)
      as (_ & _ & _ & Hn).
    rewrite Hkept in Ht, Hp. rewrite (Hpositive _ _ Hall) in Hn.
    cbn [mbind option_bind]. unfold equal.
    unfold Spec.ignored, Spec.positive in Ht, Hp, Hn.
    rewrite Ht, Hp, Hn. cbn [map mbind option_bind length].
    by rewrite Hf, Hfloor.
  - split; [by apply Hpositive|]. split; [rewrite Hpositive by done|].
    { cbn [length]. rewrite Hfloor. lra. }
    exists (50 * (lh / 4)). split; [|split; [done|lra]].
    pose proof (co_shaped_co_indexed _ _ Hshaped') as Hco.
    unfold EfficientDetHuberLoss_call.
    destruct (gather_participating Spec.positive box_true box_pred Hco)
      as (-> & Ht & Hp & Hn).
    rewrite (Hpositive _ _ Hall') in Ht, Hp, Hn.
    cbn [mbind option_bind]. unfold equal.
    unfold Spec.positive in Ht, Hp, Hn.
    rewrite Ht, Hp, Hn. cbn [map mbind option_bind length].
    rewrite Hh, Hfloor. cbn [mbind option_bind]. do 2 f_equal. lra.
Qed.

Lemma losses_all_ignored_witness :
  (Rmax 1 (INR (length (Spec.participating Spec.positive
                          Scenario.all_ignored Cases.ignored_scores))) = 1
   /\ exists r,
        EfficientDetFocalLoss_call Scenario.focal Scenario.all_ignored
          Cases.ignored_scores = Some r
        /\ r = 0 / 1 /\ 0 <= r)
  /\ (Rmax 1 (INR (length (Spec.participating Spec.positive
                             Cases.ignored_boxes Scenario.box_pred))) * 4 = 4
      /\ exists r,
           EfficientDetHuberLoss_call Scenario.huber Cases.ignored_boxes
             Scenario.box_pred = Some r
           /\ r = 50 * (0 / 4) /\ 0 <= r)
  /\ (exists r,
        EfficientDetFocalLoss_call Cases.focal_constant Scenario.all_ignored
          Cases.ignored_scores = Some r
        /\ r = 2 / 1 /\ 0 <= r)
  /\ (exists r,
        EfficientDetHuberLoss_call Cases.huber_constant Cases.ignored_boxes
          Scenario.box_pred = Some r
        /\ r = 50 * (2 / 4) /\ 0 <= r).
Proof.
  assert (Spec.co_shaped Scenario.all_ignored Cases.ignored_scores) as Hs
    by (repeat constructor).
  assert (Forall (Forall (fun a : list R => last a = Some (-1)))
            Scenario.all_ignored) as Hall by (repeat constructor).
  assert (Spec.co_shaped Cases.ignored_boxes Scenario.box_pred) as Hs'
    by (repeat constructor).
  assert (Forall (Forall (fun a : list R => last a = Some (-1)))
            Cases.ignored_boxes) as Hall' by (repeat constructor).
  assert (0 <= 0) as H0 by lra.
  assert (0 <= 2) as H2 by lra.
  destruct (losses_all_ignored Scenario.focal Scenario.huber
              Scenario.all_ignored Cases.ignored_scores
              Cases.ignored_boxes Scenario.box_pred 0 0
              Hs Hall Hs' Hall' eq_refl H0 eq_refl H0)
    as [(_ & _ & Hnf & Hf) (_ & Hnh & Hh)].
  destruct (losses_all_ignored Cases.focal_constant Cases.huber_constant
              Scenario.all_ignored Cases.ignored_scores
              Cases.ignored_boxes Scenario.box_pred 2 2
              Hs Hall Hs' Hall' eq_refl H2 eq_refl H2)
    as [(_ & _ & _ & Hf2) (_ & _ & Hh2)].
  exact (conj (conj Hnf Hf) (conj (conj Hnh Hh) (conj Hf2 Hh2))).
Defined.

Import Detector.

(** ** Construction of the detector *)

Section Construction.
Context `{Collaborators}.

Lemma bind_raise {A B} (e : exn) (k : A -> M B) :
  raise e ≫= k = raise e.
Proof. reflexivity. Qed.

Lemma bind_emit {B} (ev : event) (k : unit -> M B) :
  emit ev ≫= k = (ev :: (k tt).1, (k tt).2).
Proof. unfold emit, mbind, M_bind. by destruct (k tt). Qed.

Lemma bind_ret {A B} (x : A) (k : A -> M B) : mret x ≫= k = k x.
Proof. unfold mret, M_ret, mbind, M_bind. by destruct (k x). Qed.

Lemma bind_lift_Some {A B} (x : A) (e : exn) (k : A -> M B) :
  lift (Some x) e ≫= k = k x.
Proof. apply bind_ret. Qed.

Lemma bind_lift_None {A B} (e : exn) (k : A -> M B) :
  lift None e ≫= k = ([], Raise e).
Proof. reflexivity. Qed.

Lemma bind_assoc {A B C} (m : M A) (k : A -> M B) (k' : B -> M C) :
  (m ≫= k) ≫= k' = m ≫= (fun x => k x ≫= k').
Proof.
  destruct m as [t [x|e]]; [|done]. unfold mbind, M_bind.
  destruct (k x) as [t1 [y|e1]]; [|done].
  destruct (k' y) as [t2 r]. by rewrite app_assoc.
Qed.

Lemma bind_always_raises {A B} (m : M A) (k : A -> M B) :
  (forall x, exists e, (k x).2 = Raise e) ->
  exists e, (m ≫= k).2 = Raise e.
Proof.
  intros Hk. destruct m as [t [x|e]]; [|by exists e].
  destruct (Hk x) as [e He]. exists e. unfold mbind, M_bind.
  destruct (k x) as [t' r]. exact He.
Qed.

Lemma available_D0_VOC :
  bool_decide (Some "D0-VOC"%string ∉ _AVAILABLE_WEIGHTS) = false.
Proof.
  apply bool_decide_eq_false. intros Hnot. apply Hnot.
  unfold _AVAILABLE_WEIGHTS. set_solver.
Qed.

Lemma path_D0_VOC :
  _WEIGHTS_PATHS !! "D0-VOC"%string
  = Some "gs://ml-generic-purpose-tf-models/D0-VOC"%string.
Proof. apply lookup_singleton_eq. Qed.

(** C7.  Asked for a custom head without a class count, construction
    raises the [ValueError] of its first coherency check when nothing but
    the initialiser of the base class has run: nothing is downloaded,
    built or loaded, whatever the other arguments are. *)
Theorem init_custom_head_needs_num_classes (a : init_args) :
  arg_custom_head_classifier a = true ->
  arg_num_classes a = None ->
  EfficientDet_init a
  = ([KerasModelInit], Raise (ValueError msg_missing_num_classes))
  /\ Forall (fun e => builds_network e = false) (EfficientDet_init a).1.
Proof.
  intros Hcustom Hnone.
  assert (EfficientDet_init a
          = ([KerasModelInit], Raise (ValueError msg_missing_num_classes)))
    as Hinit.
  { unfold EfficientDet_init. rewrite Hcustom, Hnone. reflexivity. }
  split; [exact Hinit|]. rewrite Hinit. by repeat constructor.
Qed.

(** C10.  Without a class count construction always ends in an exception.
    In particular, when the checkpoint is asked for without a custom
    head, is downloaded and its hyperparameters are read, their class
    count is not taken over: once configuration, backbone and neck are
    set up, construction raises the [ValueError] of the check that
    precedes the heads. *)
Theorem init_needs_num_classes (a : init_args) :
  arg_num_classes a = None ->
  (exists e, (EfficientDet_init a).2 = Raise e)
  /\ (forall (save_dir : string) (params : hp_params),
        arg_weights a = Some "D0-VOC"%string ->
        arg_custom_head_classifier a = false ->
        download_folder "gs://ml-generic-purpose-tf-models/D0-VOC"
        = Some save_dir ->
        json_load (save_dir +:+ "/hp.json") = Some params ->
        EfficientDet_init a
        = ([KerasModelInit;
            DownloadFolder "gs://ml-generic-purpose-tf-models/D0-VOC";
            JsonLoad (save_dir +:+ "/hp.json");
            BuildConfig (hp_efficientdet params);
            BuildBackbone
              (config_B (EfficientDetCompudScaling (hp_efficientdet params)))
              None;
            SetBackboneTrainable (negb (arg_freeze_backbone a));
            BuildNeck],
           Raise (ValueError msg_no_num_classes))).
Proof.
  intros Hnone. split.
  - unfold EfficientDet_init. rewrite Hnone.
    rewrite bind_emit. cbn [snd].
    destruct (arg_custom_head_classifier a); cbn [andb is_none].
    { rewrite bind_raise. eauto. }
    rewrite bind_ret.
    destruct (bool_decide (arg_weights a ∉ _AVAILABLE_WEIGHTS)).
    { rewrite bind_raise. eauto. }
    rewrite bind_ret, andb_false_r, bind_ret.
    apply bind_always_raises. intros [[save_dir bidirectional] D].
    rewrite !bind_emit. cbn [snd]. rewrite bind_lift_None. eauto.
  - intros save_dir params Hweights Hcustom Hdir Hparams.
    unfold EfficientDet_init. rewrite Hnone, Hweights, Hcustom.
    rewrite available_D0_VOC.
    change (is_imagenet (Some "D0-VOC"%string)) with false.
    cbn [andb orb negb is_none show_weights].
    rewrite path_D0_VOC, !bind_emit, !bind_ret, bind_assoc, bind_lift_Some.
    rewrite bind_assoc, bind_emit, bind_assoc, Hdir, bind_lift_Some.
    rewrite bind_assoc, bind_emit, bind_assoc, Hparams, bind_lift_Some.
    rewrite bind_assoc, !bind_ret. cbn [fst snd].
    rewrite !bind_emit. cbn [fst snd]. by rewrite bind_lift_None.
Qed.
End Construction.

Lemma init_custom_head_needs_num_classes_witness :
  arg_custom_head_classifier Scenario.custom_head_args = true
  /\ arg_num_classes Scenario.custom_head_args = None
  /\ EfficientDet_init (H0 := Scenario.toy) Scenario.custom_head_args
     = ([KerasModelInit], Raise (ValueError msg_missing_num_classes)).
Proof.
  exact (conj eq_refl
           (conj eq_refl
              (proj1 (init_custom_head_needs_num_classes (H0 := Scenario.toy)
                        Scenario.custom_head_args eq_refl eq_refl)))).
Defined.

Lemma init_needs_num_classes_witness :
  arg_num_classes Scenario.checkpoint_args = None
  /\ EfficientDet_init (H0 := Scenario.toy) Scenario.checkpoint_args
     = ([KerasModelInit;
         DownloadFolder "gs://ml-generic-purpose-tf-models/D0-VOC";
         JsonLoad "/tmp/D0-VOC/hp.json";
         BuildConfig 0; BuildBackbone 0 None; SetBackboneTrainable true;
         BuildNeck],
        Raise (ValueError msg_no_num_classes)).
Proof.
  exact (conj eq_refl
           (proj2 (init_needs_num_classes (H0 := Scenario.toy)
                     Scenario.checkpoint_args eq_refl)
              "/tmp/D0-VOC"%string
              {| n_classes := 20; hp_bidirectional := true;
                 hp_efficientdet := 0 |}
              eq_refl eq_refl eq_refl eq_refl)).
Defined.

(** ** The forward call and the score threshold *)

(** C8, as stated, fails: a detector in training mode called with
    [training=False] still returns the raw tensors. *)
Lemma call_raw_without_training_flag :
  ~ (forall training : bool,
       (exists bboxes class_scores,
          call (H0 := Scenario.toy) Scenario.model tt (Some training)
          = TrainingOut bboxes class_scores)
       <-> training_mode Scenario.model = true /\ training = true).
Proof.
  intros Hclaim. destruct (Hclaim false) as [Hraw _].
  destruct Hraw as [_ [=]]. by exists tt, tt.
Qed.

Section Call.
Context `{Collaborators}.

(** C8, amended.  What a forward call returns is decided by the model-level
    flag alone: the raw concatenated box offsets and class scores when
    [training_mode] is set, the output of the detection filter on those
    tensors when it is not, whatever the per-call flag.  The per-call flag
    only reaches the backbone, the neck and the heads: they run with it in
    training mode, and with [False] otherwise. *)
Theorem call_output_by_training_mode (self : EfficientDet)
    (images : TfTensor) (training : option bool) :
  ((exists bboxes class_scores,
      call self images training = TrainingOut bboxes class_scores)
   <-> training_mode self = true)
  /\ ((exists detections, call self images training = InferenceOut detections)
      <-> training_mode self = false)
  /\ call self images training
     = (if training_mode self
        then TrainingOut
               (forward self images (default true training)).1
               (forward self images (default true training)).2
        else InferenceOut
               (filter_detections_call (filter_detections self) images
                  (forward self images false).1
                  (forward self images false).2)).
Proof.
  unfold call. destruct (training_mode self) eqn:Hmode.
  - rewrite andb_true_r.
    destruct (forward self images (default true training))
      as [bboxes class_scores].
    split; [split; [done|eauto]|].
    split; [split; [by intros [? [=]]|done]|]. done.
  - rewrite andb_false_r.
    destruct (forward self images false) as [bboxes class_scores].
    split; [split; [by intros (? & ? & [=])|done]|].
    split; [split; [done|eauto]|]. done.
Qed.

(** C9.  Assigning [value] to [score_threshold] makes the property read
    [value] and makes the detection filter of every later inference call
    run with [value]; configuration, backbone, neck, class count, heads,
    [training_mode] and the anchors of the filter stay as they were, and
    a call in training mode returns what it returned before. *)
Theorem score_threshold_setter (self : EfficientDet) (value : R) :
  score_threshold (set_score_threshold self value) = value
  /\ config (set_score_threshold self value) = config self
  /\ backbone (set_score_threshold self value) = backbone self
  /\ neck (set_score_threshold self value) = neck self
  /\ num_classes (set_score_threshold self value) = num_classes self
  /\ class_head (set_score_threshold self value) = class_head self
  /\ bb_head (set_score_threshold self value) = bb_head self
  /\ training_mode (set_score_threshold self value) = training_mode self
  /\ fd_anchors (filter_detections (set_score_threshold self value))
     = fd_anchors (filter_detections self)
  /\ (forall images training,
        call (set_score_threshold self value) images training
        = match call self images training with
          | TrainingOut bboxes class_scores =>
              TrainingOut bboxes class_scores
          | InferenceOut _ =>
              InferenceOut
                (filter_detections_call
                   {| fd_anchors := fd_anchors (filter_detections self);
                      fd_score_threshold := value |}
                   images
                   (forward self images false).1
                   (forward self images false).2)
          end).
Proof.
  repeat split. intros images training. unfold call.
  cbn [training_mode set_score_threshold filter_detections].
  change (forward (set_score_threshold self value) images)
    with (forward self images).
  destruct (training_mode self).
  - by destruct (forward self images _).
  - rewrite andb_false_r. by destruct (forward self images false).
Qed.
End Call.

(** ** Worked scenarios *)

(** The scenario of the specification: one anchor, labels [1, 0],
    probabilities [0.9, 0.1] and the default parameters. *)
Example focal_loss_by_hand :
  focal_loss [[1; 0]] [[0.9; 0.1]] None None None None
  = Some (Scalar (- Rpower 0.1 1.5 * ln 0.9)).
Proof.
  rewrite focal_loss_entries.
  cbn [tzip vzip mbind option_bind fmap option_fmap option_map default].
  rewrite bool_decide_eq_false_2 by done.
  rewrite bool_decide_eq_true_2 by done.
  unfold reduce_sum2. cbn [concat app sum_list foldr].
  unfold Spec.focal_entry.
  destruct (decide (1 = 1)) as [_|]; [|done].
  destruct (decide (0 = 1)) as [|_]; [lra|].
  assert (Spec.clip_into 1e-6 (1 - 1e-6) 0.9 = 0.9) as ->.
  { unfold Spec.clip_into. repeat destruct (Rlt_dec _ _); lra. }
  assert (Spec.clip_into 1e-6 (1 - 1e-6) 0.1 = 0.1) as ->.
  { unfold Spec.clip_into. repeat destruct (Rlt_dec _ _); lra. }
  replace (1 - 0.9) with 0.1 by lra.
  replace (1 - (1 - 0.1)) with 0.1 by lra.
  replace (1 - 0.1) with 0.9 by lra.
  do 2 f_equal. lra.
Qed.

(** The regression scenario of the specification on two anchors: one
    positive anchor with targets [0.1, 0.1, 0.2, 0.2] predicted as zeros,
    and one negative anchor that is predicted far off and does not count. *)
Example huber_call_by_hand :
  EfficientDetHuberLoss_call Scenario.huber Scenario.box_true Scenario.box_pred
  = Some (50 * (0.0125 / (1 * 4))).
Proof.
  assert (Spec.co_indexed Scenario.box_true Scenario.box_pred) as Hco.
  { split; repeat constructor; discriminate. }
  unfold EfficientDetHuberLoss_call.
  destruct (gather_participating Spec.positive _ _ Hco) as (-> & Ht & Hp & Hn).
  cbn [mbind option_bind]. unfold equal, Spec.positive in *.
  rewrite Ht, Hp, Hn. fold Spec.positive.
  assert (Spec.participating Spec.positive Scenario.box_true Scenario.box_pred
          = [([0.1; 0.1; 0.2; 0.2; 1], [0; 0; 0; 0])]) as ->.
  { unfold Spec.participating, Spec.anchors, Scenario.box_true,
      Scenario.box_pred.
    cbn [zip_with concat app List.filter Spec.state Spec.positive fst last
         default].
    unfold Spec.positive, Datatypes.id.
    rewrite bool_decide_eq_true_2 by done.
    rewrite bool_decide_eq_false_2 by lra. done. }
  cbn [map Spec.targets Spec.predictions fst snd removelast length].
  unfold Scenario.huber, hl_loss_fn, Spec.summed.
  cbn [mbind option_bind]. rewrite huber_loss_entries.
  cbn [tzip vzip mbind option_bind fmap option_fmap option_map default].
  rewrite bool_decide_eq_false_2 by done.
  rewrite bool_decide_eq_true_2 by done.
  unfold reduce_sum1, reduce_mean_last, reduce_mean1.
  cbn [map sum_list foldr length].
  assert (forall e, Rabs e < 1 -> Spec.huber_entry 1 e = 0.5 * e ^ 2)
    as Hsq.
  { intros e He. unfold Spec.huber_entry. by destruct (Rlt_dec _ _). }
  assert (Rmax 1 (INR 1) = 1) as ->.
  { simpl. unfold Rmax. destruct (Rle_dec 1 1); lra. }
  assert (INR 4 = 4) as -> by (simpl; lra).
  rewrite !Hsq; [|unfold Rabs; destruct (Rcase_abs _); lra..].
  cbn [mbind option_bind]. do 2 f_equal. lra.
Qed.

(** Construction succeeds once a class count is given, from the ImageNet
    backbone as well as from the checkpoint. *)
Example init_from_imagenet :
  EfficientDet_init (H0 := Scenario.toy)
    {| arg_num_classes := Some 20%Z; arg_D := 0; arg_bidirectional := true;
       arg_freeze_backbone := false; arg_score_threshold := 0.1;
       arg_weights := Some "imagenet"%string;
       arg_custom_head_classifier := false; arg_training_mode := true |}
  = ([KerasModelInit; BuildConfig 0; BuildBackbone 0 (Some "imagenet"%string);
      SetBackboneTrainable true; BuildNeck; BuildClassHead 20; BuildBBHead;
      BuildFilterDetections],
     Return Scenario.model).
Proof.
  unfold EfficientDet_init. cbn [arg_num_classes arg_weights
    arg_custom_head_classifier arg_training_mode arg_D arg_bidirectional
    arg_freeze_backbone arg_score_threshold].
  assert (bool_decide (Some "imagenet"%string ∉ _AVAILABLE_WEIGHTS) = false)
    as ->.
  { apply bool_decide_eq_false. intros Hnot. apply Hnot.
    unfold _AVAILABLE_WEIGHTS. set_solver. }
  reflexivity.
Qed.

Example init_from_checkpoint :
  EfficientDet_init (H0 := Scenario.toy)
    {| arg_num_classes := Some 20%Z; arg_D := 3; arg_bidirectional := true;
       arg_freeze_backbone := false; arg_score_threshold := 0.1;
       arg_weights := Some "D0-VOC"%string;
       arg_custom_head_classifier := false; arg_training_mode := true |}
  = ([KerasModelInit;
      DownloadFolder "gs://ml-generic-purpose-tf-models/D0-VOC";
      JsonLoad "/tmp/D0-VOC/hp.json"; BuildConfig 0; BuildBackbone 0 None;
      SetBackboneTrainable true; BuildNeck; BuildClassHead 20; BuildBBHead;
      BuildFilterDetections; BuildModel;
      LoadWeights "/tmp/D0-VOC/model.h5" false],
     Return Scenario.model).
Proof.
  unfold EfficientDet_init. cbn [arg_num_classes arg_weights
    arg_custom_head_classifier arg_training_mode arg_D arg_bidirectional
    arg_freeze_backbone arg_score_threshold].
  rewrite available_D0_VOC.
  change (is_imagenet (Some "D0-VOC"%string)) with false.
  cbn [andb orb negb is_none show_weights]. rewrite path_D0_VOC.
  reflexivity.
Qed.

(** * Further properties *)

Import Frame Pretrained.

(** ** More on element-wise operations *)

Lemma tzip_Forall {A B C} (P : C -> Prop) (f : A -> B -> C) s t r :
  (forall a b, P (f a b)) -> tzip f s t = Some r -> Forall (Forall P) r.
Proof.
  intros HP. rewrite (tzip_pair f).
  destruct (tzip pair s t) as [st|]; [|done]. intros [= <-].
  unfold tmap. rewrite Forall_map. apply Forall_true. intros u.
  rewrite Forall_map. by apply Forall_true.
Qed.

Lemma tzip_ext_Forall {A B C} (P : A -> Prop) (f g : A -> B -> C) s t :
  Forall (Forall P) s -> (forall a b, P a -> f a b = g a b) ->
  tzip f s t = tzip g s t.
Proof.
  intros Hs Hfg. revert t. induction Hs as [|u s Hu _ IH]; intros [|v t];
    try done.
  cbn [tzip]. rewrite IH. f_equal.
  revert v. induction Hu as [|a u Ha _ IHu]; intros [|b v]; try done.
  cbn [vzip]. by rewrite IHu, Hfg.
Qed.

Lemma tzip_ext {A B C} (f g : A -> B -> C) s t :
  (forall a b, f a b = g a b) -> tzip f s t = tzip g s t.
Proof.
  intros Hfg. apply (tzip_ext_Forall (fun _ => True)); [|auto].
  apply Forall_true. intros u. by apply Forall_true.
Qed.

Lemma tmap_id {A} (t : list (list A)) : tmap (fun x => x) t = t.
Proof.
  unfold tmap. rewrite <- (map_id t) at 2. apply map_ext. intros u.
  apply map_id.
Qed.

Lemma tzip_tmap_r {A B B' C} (f : A -> B' -> C) (h : B -> B') s t :
  tzip f s (tmap h t) = tzip (fun a b => f a (h b)) s t.
Proof. by rewrite <- (tmap_id s) at 1; rewrite tzip_tmap. Qed.

Lemma tzip_swap {A B C} (f : A -> B -> C) s t :
  tzip f s t = tzip (fun b a => f a b) t s.
Proof.
  revert t. induction s as [|u s IH]; intros [|v t]; try done.
  cbn [tzip]. rewrite IH. f_equal.
  revert v. induction u as [|a u IHu]; intros [|b v]; try done.
  cbn [vzip]. by rewrite IHu.
Qed.

Lemma sum_list_nonneg (v : list R) : Forall (fun x => 0 <= x) v -> 0 <= sum_list v.
Proof.
  induction 1 as [|x v Hx _ IH]; unfold sum_list in *; cbn [foldr]; lra.
Qed.

Lemma sum_list_app (u v : list R) : sum_list (u ++ v) = sum_list u + sum_list v.
Proof.
  induction u as [|x u IH]; unfold sum_list in *; cbn [foldr app]; lra.
Qed.

Lemma reduce_sum2_nonneg (t : tensor2) :
  Forall (Forall (fun x => 0 <= x)) t -> 0 <= reduce_sum2 t.
Proof.
  intros Ht. apply sum_list_nonneg. by apply Forall_concat.
Qed.

(** ** Bounds of the focal loss *)

Lemma clip_into_bounds (p : R) :
  1e-6 <= Spec.clip_into 1e-6 (1 - 1e-6) p <= 1 - 1e-6.
Proof. unfold Spec.clip_into. repeat destruct (Rlt_dec _ _); lra. Qed.

Lemma Rpower_unit (x c : R) : 0 < x <= 1 -> 0 <= c -> 0 < Rpower x c <= 1.
Proof.
  intros Hx Hc. split; [apply exp_pos|].
  apply Rle_trans with (Rpower 1 c); [apply Rle_Rpower_l; lra|].
  right. unfold Rpower. by rewrite ln_1, Rmult_0_r, exp_0.
Qed.

Lemma ln_unit (x lo : R) : 0 < lo <= x -> x <= 1 -> 0 <= - ln x <= - ln lo.
Proof.
  intros [Hlo Hx] H1.
  assert (ln x <= 0).
  { rewrite <- ln_1. destruct (Req_dec_T x 1) as [->|]; [lra|].
    left. apply ln_increasing; lra. }
  assert (ln lo <= ln x).
  { destruct (Req_dec_T lo x) as [->|]; [lra|].
    left. apply ln_increasing; lra. }
  lra.
Qed.

Lemma focal_entry_bounds (gamma alpha : R) (from_logits : bool) (y p : R) :
  0 <= alpha <= 1 -> 0 <= gamma ->
  0 <= Spec.focal_entry gamma alpha from_logits y p <= - ln 1e-6.
Proof.
  intros Ha Hg. unfold Spec.focal_entry.
  set (q := Spec.clip_into _ _ _).
  pose proof (clip_into_bounds (if from_logits then 1 / (1 + exp (- p)) else p))
    as Hq. fold q in Hq.
  set (pt := if decide (y = 1) then q else 1 - q).
  set (at_ := if decide (y = 1) then alpha else 1 - alpha).
  assert (1e-6 <= pt <= 1 - 1e-6) as Hpt by (unfold pt; destruct (decide _); lra).
  assert (0 <= at_ <= 1) as Hat by (unfold at_; destruct (decide _); lra).
  pose proof (Rpower_unit (1 - pt) gamma ltac:(lra) Hg) as Hpow.
  pose proof (ln_unit pt 1e-6 ltac:(lra) ltac:(lra)) as Hln.
  set (w := Rpower (1 - pt) gamma) in *. set (l := - ln pt) in *.
  set (m := - ln 1e-6) in *.
  replace (- at_ * w * ln pt) with (at_ * w * l) by (unfold l; lra).
  assert (0 <= at_ * w <= 1) by nra. nra.
Qed.

(** X1.  With [alpha] in [[0, 1]] and a non-negative [gamma], every entry of
    the unreduced focal loss lies between 0 and [-log(1e-6)], whatever the
    labels and the scores (logits or probabilities): the clipping keeps the
    logarithm bounded.  The summed loss is therefore non-negative. *)
Theorem focal_loss_bounded (y_true y_pred : tensor2) (gamma alpha : R)
    (from_logits : option bool) :
  0 <= alpha <= 1 -> 0 <= gamma ->
  (forall t,
     focal_loss y_true y_pred (Some gamma) (Some alpha) from_logits
       (Some "none"%string) = Some (PerEntry t) ->
     Forall (Forall (fun v => 0 <= v <= - ln 1e-6)) t)
  /\ (forall s,
        focal_loss y_true y_pred (Some gamma) (Some alpha) from_logits None
        = Some (Scalar s) ->
        0 <= s).
Proof.
  intros Ha Hg. rewrite !focal_loss_entries.
  destruct (tzip _ y_true y_pred) as [loss|] eqn:E; [|done].
  assert (Forall (Forall (fun v => 0 <= v <= - ln 1e-6)) loss) as Hloss.
  { eapply tzip_Forall; [|exact E]. intros y p. cbn [default].
    by apply focal_entry_bounds. }
  split.
  - intros t [= <-]. exact Hloss.
  - intros s [= <-]. apply reduce_sum2_nonneg.
    eapply Forall_impl; [exact Hloss|]. intros u Hu.
    eapply Forall_impl; [exact Hu|]. intros v Hv. cbn in Hv. lra.
Qed.

Lemma focal_loss_bounded_witness :
  exists t,
    focal_loss [[1; 0]] [[0.9; 0.1]] (Some 1.5) (Some 0.25) None
      (Some "none"%string) = Some (PerEntry t)
    /\ Forall (Forall (fun v => 0 <= v <= - ln 1e-6)) t.
Proof.
  eexists. split; [reflexivity|].
  apply (proj1 (focal_loss_bounded [[1; 0]] [[0.9; 0.1]] 1.5 0.25 None
                  ltac:(lra) ltac:(lra))).
  reflexivity.
Defined.

Lemma clip_into_idem (p : R) :
  Spec.clip_into 1e-6 (1 - 1e-6) (Spec.clip_into 1e-6 (1 - 1e-6) p)
  = Spec.clip_into 1e-6 (1 - 1e-6) p.
Proof. unfold Spec.clip_into. repeat destruct (Rlt_dec _ _); lra. Qed.

(** X2.  Probabilities are saturated, not rejected: a score outside
    [[1e-6, 1 - 1e-6]] (0, 1, a negative number) gives the loss of the
    nearest bound, so clipping the scores beforehand changes nothing. *)
Theorem focal_loss_saturates (y_true y_pred : tensor2) (gamma alpha : option R)
    (reduction : option string) :
  focal_loss y_true y_pred gamma alpha (Some false) reduction
  = focal_loss y_true (clip_by_value y_pred 1e-6 (1 - 1e-6)) gamma alpha
      (Some false) reduction
  /\ focal_loss y_true y_pred gamma alpha None reduction
     = focal_loss y_true (clip_by_value y_pred 1e-6 (1 - 1e-6)) gamma alpha
         None reduction.
Proof.
  rewrite !focal_loss_entries. unfold clip_by_value. rewrite !tzip_tmap_r.
  cbn [default].
  assert (forall y p,
            Spec.focal_entry (default 1.5 gamma) (default 0.25 alpha) false y p
            = Spec.focal_entry (default 1.5 gamma) (default 0.25 alpha) false y
                (clip 1e-6 (1 - 1e-6) p)) as Hsat.
  { intros y p. unfold Spec.focal_entry.
    rewrite (clip_clip_into 1e-6 (1 - 1e-6) p) by lra.
    by rewrite clip_into_idem. }
  split; f_equal; apply tzip_ext; intros y p; apply Hsat.
Qed.

Lemma clip_into_mono (p q : R) :
  p <= q ->
  Spec.clip_into 1e-6 (1 - 1e-6) p <= Spec.clip_into 1e-6 (1 - 1e-6) q.
Proof. unfold Spec.clip_into. repeat destruct (Rlt_dec _ _); lra. Qed.

Lemma ln_le (a b : R) : 0 < a <= b -> ln a <= ln b.
Proof.
  intros [Ha Hab]. destruct (Req_dec_T a b) as [->|]; [lra|].
  left. apply ln_increasing; lra.
Qed.

Lemma focal_term_le (gamma a b : R) :
  0 <= gamma -> 0 < a <= b -> b < 1 ->
  Rpower (1 - b) gamma * - ln b <= Rpower (1 - a) gamma * - ln a.
Proof.
  intros Hg [Ha Hab] Hb.
  assert (Rpower (1 - b) gamma <= Rpower (1 - a) gamma) as H1
    by (apply Rle_Rpower_l; lra).
  assert (0 < Rpower (1 - b) gamma) as H2 by apply exp_pos.
  pose proof (ln_le a b ltac:(lra)) as H3.
  pose proof (ln_le b 1 ltac:(lra)) as H4. rewrite ln_1 in H4.
  nra.
Qed.

Lemma focal_entry_better (gamma alpha y p q : R) :
  0 <= alpha <= 1 -> 0 <= gamma ->
  (y = 1 /\ p <= q) \/ (y = 0 /\ q <= p) ->
  Spec.focal_entry gamma alpha false y q
  <= Spec.focal_entry gamma alpha false y p.
Proof.
  intros Ha Hg Hpq. unfold Spec.focal_entry.
  pose proof (clip_into_bounds p) as Hp. pose proof (clip_into_bounds q) as Hq.
  destruct Hpq as [[-> Hle] | [-> Hle]]; apply clip_into_mono in Hle;
    set (cp := Spec.clip_into _ _ p) in *;
    set (cq := Spec.clip_into _ _ q) in *.
  - destruct (decide (1 = 1)) as [_|]; [|done].
    pose proof (focal_term_le gamma cp cq Hg ltac:(lra) ltac:(lra)). nra.
  - destruct (decide (0 = 1)) as [|_]; [lra|].
    pose proof (focal_term_le gamma (1 - cp) (1 - cq) Hg ltac:(lra) ltac:(lra)).
    nra.
Qed.

Lemma tzip_sum_le {A B} (f g : A -> B -> R) s t tf tg :
  Forall2 (Forall2 (fun a b => g a b <= f a b)) s t ->
  tzip f s t = Some tf -> tzip g s t = Some tg ->
  reduce_sum2 tg <= reduce_sum2 tf.
Proof.
  intros Hst. revert tf tg.
  induction Hst as [|u v s t Huv _ IH]; intros tf tg; cbn [tzip].
  - intros [= <-] [= <-]. unfold reduce_sum2. cbn. lra.
  - destruct (vzip f u v) as [rf|] eqn:Ef; [|done].
    destruct (vzip g u v) as [rg|] eqn:Eg; [|done].
    destruct (tzip f s t) as [tf'|]; [|done].
    destruct (tzip g s t) as [tg'|]; [|done].
    cbn [mbind option_bind]. intros [= <-] [= <-].
    specialize (IH _ _ eq_refl eq_refl). unfold reduce_sum2 in *.
    cbn [concat]. rewrite !sum_list_app.
    assert (sum_list rg <= sum_list rf); [|lra].
    clear -Huv Ef Eg. revert rf rg Ef Eg.
    induction Huv as [|a b u v Hab _ IHu]; intros rf rg; cbn [vzip].
    + intros [= <-] [= <-]. lra.
    + destruct (vzip f u v) as [rf'|]; [|done].
      destruct (vzip g u v) as [rg'|]; [|done].
      cbn [mbind option_bind]. intros [= <-] [= <-].
      specialize (IHu _ _ eq_refl eq_refl).
      unfold sum_list in *. cbn [foldr]. lra.
Qed.

(** X4.  Scores that are at least as good at every entry -- no lower where
    the label is 1, no higher where it is 0 -- never give a larger summed
    focal loss, for [alpha] in [[0, 1]] and a non-negative [gamma]. *)
Theorem focal_loss_monotone (y_true : tensor2) (scores : list (list (R * R)))
    (gamma alpha worse better : R) :
  0 <= alpha <= 1 -> 0 <= gamma ->
  Forall2 (Forall2 (fun (y : R) (pq : R * R) =>
                      (y = 1 /\ pq.1 <= pq.2) \/ (y = 0 /\ pq.2 <= pq.1)))
          y_true scores ->
  focal_loss y_true (tmap fst scores) (Some gamma) (Some alpha) (Some false)
    None = Some (Scalar worse) ->
  focal_loss y_true (tmap snd scores) (Some gamma) (Some alpha) (Some false)
    None = Some (Scalar better) ->
  better <= worse.
Proof.
  intros Ha Hg Hscores. rewrite !focal_loss_entries, !tzip_tmap_r.
  cbn [default].
  destruct (tzip _ y_true scores) as [tw|] eqn:Ew; [|done].
  destruct (tzip (fun a b => _ a b.2) y_true scores) as [tb|] eqn:Eb; [|done].
  intros [= <-] [= <-]. eapply tzip_sum_le; [|exact Ew|exact Eb].
  eapply Forall2_impl; [exact Hscores|]. intros u v Huv.
  eapply Forall2_impl; [exact Huv|]. intros y pq Hy. cbn beta.
  by apply focal_entry_better.
Qed.

Lemma focal_loss_monotone_witness :
  exists worse better,
    focal_loss [[1; 0]] (tmap fst [[(0.6, 0.9); (0.4, 0.1)]]) (Some 1.5)
      (Some 0.25) (Some false) None = Some (Scalar worse)
    /\ focal_loss [[1; 0]] (tmap snd [[(0.6, 0.9); (0.4, 0.1)]]) (Some 1.5)
         (Some 0.25) (Some false) None = Some (Scalar better)
    /\ better <= worse.
Proof.
  eexists _, _. split; [reflexivity|]. split; [reflexivity|].
  apply (focal_loss_monotone [[1; 0]] [[(0.6, 0.9); (0.4, 0.1)]] 1.5 0.25);
    [lra|lra| |reflexivity|reflexivity].
  apply Forall2_cons; split; [|apply Forall2_nil_2].
  apply Forall2_cons; split; [left; cbn; split; [reflexivity|lra]|].
  apply Forall2_cons; split; [right; cbn; split; [reflexivity|lra]|].
  apply Forall2_nil_2.
Defined.

(** ** More on the Huber loss *)

Lemma huber_entry_sym (delta a b : R) :
  Spec.huber_entry delta (a - b) = Spec.huber_entry delta (b - a).
Proof.
  unfold Spec.huber_entry. rewrite (Rabs_minus_sym a b).
  destruct (Rlt_dec _ _); lra.
Qed.

(** X5.  The Huber loss is symmetric in its two arguments: exchanging
    targets and predictions gives the same loss under every reduction. *)
Theorem huber_loss_symmetric (y_true y_pred : tensor2) (delta : option R)
    (reduction : option string) :
  huber_loss y_true y_pred delta reduction
  = huber_loss y_pred y_true delta reduction.
Proof.
  rewrite !huber_loss_entries, (tzip_swap _ y_pred y_true). f_equal.
  apply tzip_ext. intros t p. apply huber_entry_sym.
Qed.

Lemma huber_entry_nonneg (delta e : R) :
  0 <= delta -> 0 <= Spec.huber_entry delta e.
Proof.
  intros Hd. unfold Spec.huber_entry.
  destruct (Rlt_dec (Rabs e) delta) as [Hlt|Hge]; nra.
Qed.

Lemma Rinv_length_pos {A} (l : list A) : l <> [] -> 0 < / INR (length l).
Proof.
  intros Hne. apply Rinv_0_lt_compat, lt_0_INR.
  destruct l; [done|cbn; lia].
Qed.

Lemma reduce_mean1_nonneg (v : tensor1) :
  v <> [] -> Forall (fun x => 0 <= x) v -> 0 <= reduce_mean1 v.
Proof.
  intros Hne Hv. unfold reduce_mean1, Rdiv.
  apply Rmult_le_pos; [by apply sum_list_nonneg|].
  left. by apply Rinv_length_pos.
Qed.

(** Zipping keeps the anchors of the first tensor non-empty. *)
Lemma tzip_nonempty {A B C} (f : A -> B -> C) s t r :
  tzip f s t = Some r ->
  Forall (fun u => u <> []) s -> Forall (fun w => w <> []) r.
Proof.
  rewrite (tzip_pair f). destruct (tzip pair s t) as [st|] eqn:E; [|done].
  intros [= <-]. destruct (tzip_pair_Some _ _ _ E) as [-> _].
  unfold tmap. rewrite !Forall_map. intros HF.
  eapply Forall_impl; [exact HF|]. intros w. cbn.
  intros Hw Hnil. apply Hw. apply map_eq_nil in Hnil. by subst.
Qed.

(** X6.  With a non-negative [delta] and anchors that have at least one
    coordinate, the Huber loss of every anchor, and with it the summed
    loss, is non-negative. *)
Theorem huber_loss_nonneg (y_true y_pred : tensor2) (delta : R) :
  0 <= delta ->
  Forall (fun anchor => anchor <> []) y_true ->
  (forall v,
     huber_loss y_true y_pred (Some delta) (Some "none"%string)
     = Some (PerAnchor v) ->
     Forall (fun h => 0 <= h) v)
  /\ (forall s,
        huber_loss y_true y_pred (Some delta) None = Some (Scalar s) ->
        0 <= s).
Proof.
  intros Hd Hne. rewrite !huber_loss_entries.
  destruct (tzip _ y_true y_pred) as [loss|] eqn:E; [|done].
  assert (Forall (fun h => 0 <= h) (reduce_mean_last loss)) as Hloss.
  { unfold reduce_mean_last. rewrite Forall_map.
    pose proof (tzip_nonempty _ _ _ _ E Hne) as Hrows.
    assert (Forall (Forall (fun x => 0 <= x)) loss) as Hpos.
    { eapply (tzip_Forall (fun x => 0 <= x)); [|exact E].
      intros t p. by apply huber_entry_nonneg. }
    pose proof (List.Forall_and Hrows Hpos) as Hboth.
    eapply Forall_impl; [exact Hboth|]. intros u [Hu Hu'].
    by apply reduce_mean1_nonneg. }
  split.
  - intros v [= <-]. exact Hloss.
  - intros s [= <-]. by apply sum_list_nonneg.
Qed.

Lemma huber_loss_nonneg_witness :
  exists s,
    huber_loss [[0.1; 0.1; 0.2; 0.2]] [[0; 0; 0; 3]] (Some 1) None
    = Some (Scalar s)
    /\ 0 <= s.
Proof.
  eexists. split; [reflexivity|].
  apply (proj2 (huber_loss_nonneg [[0.1; 0.1; 0.2; 0.2]] [[0; 0; 0; 3]] 1
                  ltac:(lra)
                  ltac:(apply Forall_cons; split;
                        [discriminate|apply Forall_nil_2]))).
  reflexivity.
Defined.

(** X7.  Predictions that equal the targets cost nothing: for a
    non-negative [delta] and anchors that have at least one coordinate, the
    Huber loss of every anchor is 0 and so is the summed loss.  (A negative
    [delta] would make it [-0.5 * delta^2].) *)
Theorem huber_loss_zero_on_equal (y : tensor2) (delta : R) :
  0 <= delta ->
  Forall (fun anchor => anchor <> []) y ->
  huber_loss y y (Some delta) (Some "none"%string)
  = Some (PerAnchor (map (fun _ => 0) y))
  /\ huber_loss y y (Some delta) None = Some (Scalar 0).
Proof.
  intros Hd Hne. rewrite !huber_loss_entries.
  rewrite <- (tmap_id y) at 1 2 4 5. rewrite !tzip_same.
  cbn [fmap option_fmap option_map default].
  rewrite !bool_decide_eq_false_2 by done.
  rewrite bool_decide_eq_true_2 by done. unfold Datatypes.id.
  assert (reduce_mean_last
            (tmap (fun x : R => Spec.huber_entry delta (x - x)) y)
          = map (fun _ => 0) y) as ->.
  { unfold reduce_mean_last, tmap. rewrite map_map.
    apply map_ext_Forall. eapply Forall_impl; [exact Hne|].
    intros u Hu. cbn beta. unfold reduce_mean1.
    assert (sum_list (map (fun x : R => Spec.huber_entry delta (x - x)) u)
            = 0) as ->; [|unfold Rdiv; lra].
    clear Hu. induction u as [|x u IHu]; [done|].
    unfold sum_list in *. cbn [map foldr]. rewrite IHu.
    unfold Spec.huber_entry. replace (x - x) with 0 by lra.
    rewrite Rabs_R0. destruct (Rlt_dec 0 delta) as [_|Hzero]; [lra|].
    replace delta with 0 by lra. lra. }
  split; [done|]. do 2 f_equal. unfold reduce_sum1. clear Hne.
  induction y as [|u y IH]; [done|].
  unfold sum_list in *. cbn [map foldr]. rewrite IH. lra.
Qed.

Lemma huber_loss_zero_on_equal_witness :
  huber_loss [[0.1; 0.1; 0.2; 0.2]] [[0.1; 0.1; 0.2; 0.2]] (Some 1)
    (Some "none"%string)
  = Some (PerAnchor (map (fun _ => 0) [[0.1; 0.1; 0.2; 0.2]]))
  /\ huber_loss [[0.1; 0.1; 0.2; 0.2]] [[0.1; 0.1; 0.2; 0.2]] (Some 1) None
     = Some (Scalar 0).
Proof.
  apply (huber_loss_zero_on_equal [[0.1; 0.1; 0.2; 0.2]] 1); [lra|].
  apply Forall_cons; split; [discriminate|apply Forall_nil_2].
Defined.

Lemma huber_entry_le (delta e : R) :
  0 <= delta ->
  Spec.huber_entry delta e <= 0.5 * e ^ 2
  /\ Spec.huber_entry delta e <= delta * Rabs e.
Proof.
  intros Hd. unfold Spec.huber_entry.
  assert (0 <= Rabs e) by apply Rabs_pos.
  assert (Rabs e * Rabs e = e * e) as Hsq.
  { unfold Rabs. destruct (Rcase_abs e); lra. }
  destruct (Rlt_dec (Rabs e) delta) as [Hlt|Hge]; split; nra.
Qed.

Lemma reduce_mean1_le {A} (f g : A -> R) (l : list A) :
  l <> [] ->
  (forall x, f x <= g x) ->
  reduce_mean1 (map f l) <= reduce_mean1 (map g l).
Proof.
  intros Hne Hfg. unfold reduce_mean1, Rdiv. rewrite !length_map.
  apply Rmult_le_compat_r; [left; by apply Rinv_length_pos|]. clear Hne.
  induction l as [|x l IH]; unfold sum_list in *; cbn [map foldr]; [lra|].
  specialize (Hfg x). lra.
Qed.

Lemma reduce_mean1_scale (c : R) (v : tensor1) :
  reduce_mean1 (map (Rmult c) v) = c * reduce_mean1 v.
Proof.
  unfold reduce_mean1, Rdiv. rewrite length_map, <- Rmult_assoc. f_equal.
  induction v as [|x v IH]; unfold sum_list in *; cbn [map foldr]; [lra|].
  rewrite IH. lra.
Qed.

(** X8.  With a non-negative [delta] and anchors that have at least one
    coordinate, the Huber loss of an anchor is at most the mean of half the
    squared errors of its coordinates and at most [delta] times the mean of
    their absolute errors: large errors count linearly, never
    quadratically. *)
Theorem huber_loss_robust (y_true y_pred errors : tensor2) (delta : R)
    (v : tensor1) :
  0 <= delta ->
  Forall (fun anchor => anchor <> []) y_true ->
  tzip Rminus y_true y_pred = Some errors ->
  huber_loss y_true y_pred (Some delta) (Some "none"%string)
  = Some (PerAnchor v) ->
  Forall2 (fun h es =>
             h <= reduce_mean1 (map (fun e => 0.5 * e ^ 2) es)
             /\ h <= delta * reduce_mean1 (map Rabs es))
          v errors.
Proof.
  intros Hd Hne Herr. rewrite huber_loss_entries, <- tzip_fmap, Herr.
  cbn [fmap option_fmap option_map default]. intros [= <-].
  unfold reduce_mean_last, tmap. rewrite map_map.
  apply Forall2_fmap_l, Forall_Forall2_diag.
  eapply Forall_impl; [exact (tzip_nonempty _ _ _ _ Herr Hne)|].
  intros es Hes. cbn beta. split.
  - apply reduce_mean1_le; [done|]. intros e. by apply huber_entry_le.
  - rewrite <- reduce_mean1_scale, map_map.
    apply reduce_mean1_le; [done|]. intros e. by apply huber_entry_le.
Qed.

Lemma huber_loss_robust_witness :
  exists v,
    huber_loss [[0.1; 0.1; 0.2; 5]] [[0; 0; 0; 0]] (Some 1)
      (Some "none"%string) = Some (PerAnchor v)
    /\ Forall2 (fun h es =>
                  h <= reduce_mean1 (map (fun e => 0.5 * e ^ 2) es)
                  /\ h <= 1 * reduce_mean1 (map Rabs es))
               v [[0.1 - 0; 0.1 - 0; 0.2 - 0; 5 - 0]].
Proof.
  eexists. split; [reflexivity|].
  apply (huber_loss_robust [[0.1; 0.1; 0.2; 5]] [[0; 0; 0; 0]] _ 1);
    [lra| |reflexivity|reflexivity].
  apply Forall_cons; split; [discriminate|apply Forall_nil_2].
Defined.

(** ** More on the two [call] methods *)






Lemma Rmax_1_INR (n : nat) : 1 <= Rmax 1 (INR n).
Proof. apply Rmax_l. Qed.

(** X11.  The normaliser is at least 1, so dividing by it never enlarges
    what the loss object sums up.  On co-indexed targets and predictions,
    whenever the loss object returns a non-negative [l] for the anchors the
    call gathers -- those that are not ignored for the focal loss, the
    positive ones for the Huber loss -- the call returns a value, between 0
    and [l] for the focal loss and between 0 and [12.5 * l] for the Huber
    loss. *)
Theorem call_normalisers (focal : EfficientDetFocalLoss)
    (huber : EfficientDetHuberLoss) (y_true y_pred : tensor3) (l : R) :
  Spec.co_indexed y_true y_pred ->
  0 <= l ->
  (fl_loss_fn focal
     (map Spec.targets
        (Spec.participating (fun s => negb (Spec.ignored s)) y_true y_pred))
     (map Spec.predictions
        (Spec.participating (fun s => negb (Spec.ignored s)) y_true y_pred))
   = Some l ->
   exists r,
     EfficientDetFocalLoss_call focal y_true y_pred = Some r /\ 0 <= r <= l)
  /\ (hl_loss_fn huber
        (map Spec.targets (Spec.participating Spec.positive y_true y_pred))
        (map Spec.predictions
           (Spec.participating Spec.positive y_true y_pred))
      = Some l ->
      exists r,
        EfficientDetHuberLoss_call huber y_true y_pred = Some r
        /\ 0 <= r <= 12.5 * l).
Proof.
  intros Hco Hl.
  pose proof (Rmax_1_INR (length (Spec.participating Spec.positive
                                    y_true y_pred))) as Hn.
  set (n := Rmax 1 _) in Hn.
  destruct (gather_participating Spec.positive y_true y_pred Hco)
    as (Hstates & Ht1 & Hp1 & Hcount).
  split; intros Hloss.
  - exists (l / n). split.
    + unfold EfficientDetFocalLoss_call.
      destruct (gather_participating (fun s => negb (Spec.ignored s))
                  y_true y_pred Hco) as (_ & Ht & Hp & _).
      rewrite Hstates. cbn [mbind option_bind]. unfold equal.
      unfold Spec.ignored, Spec.positive in Ht, Hp, Hcount, Hloss.
      rewrite Ht, Hp, Hcount. cbn [mbind option_bind].
      unfold Spec.ignored in Hloss. by rewrite Hloss.
    + assert (0 < / n <= 1) as Hinv.
      { split; [apply Rinv_0_lt_compat; lra|].
        rewrite <- Rinv_1. apply Rinv_le_contravar; lra. }
      unfold Rdiv. nra.
  - exists (50 * (l / (n * 4))). split.
    + unfold EfficientDetHuberLoss_call.
      rewrite Hstates. cbn [mbind option_bind]. unfold equal.
      unfold Spec.positive in Ht1, Hp1, Hcount, Hloss.
      rewrite Ht1, Hp1, Hcount. cbn [mbind option_bind].
      by rewrite Hloss.
    + assert (0 < / (n * 4) <= / 4) as Hinv.
      { split; [apply Rinv_0_lt_compat; lra|].
        apply Rinv_le_contravar; lra. }
      unfold Rdiv. nra.
Qed.

(** X12.  A target vector without entries carries no state to read: on a
    batch that has one, both losses fail. *)
Theorem call_needs_states (focal : EfficientDetFocalLoss)
    (huber : EfficientDetHuberLoss) (y_true y_pred : tensor3) :
  Exists (Exists (fun anchor => anchor = [])) y_true ->
  EfficientDetFocalLoss_call focal y_true y_pred = None
  /\ EfficientDetHuberLoss_call huber y_true y_pred = None.
Proof.
  intros Hempty.
  assert (index_last y_true = None) as Hlast.
  { unfold index_last. apply mapM_None.
    eapply Exists_impl; [exact Hempty|]. intros image Himage. cbn beta.
    apply mapM_None. eapply Exists_impl; [exact Himage|].
    by intros anchor ->. }
  unfold EfficientDetFocalLoss_call, EfficientDetHuberLoss_call.
  by rewrite Hlast.
Qed.

Lemma call_needs_states_witness :
  EfficientDetFocalLoss_call Scenario.focal [[[1; 0; 1]; []]] Scenario.y_pred
  = None
  /\ EfficientDetHuberLoss_call Scenario.huber [[[1; 0; 1]; []]]
       Scenario.y_pred = None.
Proof.
  apply call_needs_states.
  apply Exists_cons_hd, Exists_cons_tl, Exists_cons_hd. reflexivity.
Defined.

(** What the loss objects of [Scenario] are handed on its two batches, and
    what they return. *)
Lemma focal_object_by_hand :
  exists l,
    fl_loss_fn Scenario.focal
      (map Spec.targets
         (Spec.participating (fun s => negb (Spec.ignored s))
            Scenario.y_true Scenario.y_pred))
      (map Spec.predictions
         (Spec.participating (fun s => negb (Spec.ignored s))
            Scenario.y_true Scenario.y_pred))
    = Some l
    /\ 0 <= l.
Proof.
  assert (Spec.participating (fun s => negb (Spec.ignored s))
            Scenario.y_true Scenario.y_pred
          = [([1; 0; 1], [0.9; 0.1]); ([0; 0; 0], [0.2; 0.3])]) as ->.
  { unfold Spec.participating, Spec.anchors, Scenario.y_true,
      Scenario.y_pred.
    cbn [zip_with concat app List.filter Spec.state fst last default].
    unfold Spec.ignored, Datatypes.id.
    rewrite !(bool_decide_eq_false_2 (_ = -1)) by lra.
    rewrite bool_decide_eq_true_2 by done. done. }
  cbn [map Spec.targets Spec.predictions fst snd removelast].
  unfold Scenario.focal, EfficientDetFocalLoss_init, fl_loss_fn, Spec.summed.
  rewrite focal_loss_entries.
  cbn [tzip vzip mbind option_bind fmap option_fmap option_map default].
  rewrite bool_decide_eq_false_2 by done.
  rewrite bool_decide_eq_true_2 by done.
  eexists. split; [reflexivity|].
  apply reduce_sum2_nonneg. unfold Datatypes.id.
  repeat (apply Forall_cons; split); try apply Forall_nil_2;
    apply (focal_entry_bounds 1.5 0.25); lra.
Qed.

Lemma huber_object_by_hand :
  hl_loss_fn Scenario.huber
    (map Spec.targets
       (Spec.participating Spec.positive Scenario.box_true Scenario.box_pred))
    (map Spec.predictions
       (Spec.participating Spec.positive Scenario.box_true Scenario.box_pred))
  = Some 0.0125.
Proof.
  assert (Spec.participating Spec.positive Scenario.box_true Scenario.box_pred
          = [([0.1; 0.1; 0.2; 0.2; 1], [0; 0; 0; 0])]) as ->.
  { unfold Spec.participating, Spec.anchors, Scenario.box_true,
      Scenario.box_pred.
    cbn [zip_with concat app List.filter Spec.state Spec.positive fst last
         default].
    unfold Spec.positive, Datatypes.id.
    rewrite bool_decide_eq_true_2 by done.
    rewrite bool_decide_eq_false_2 by lra. done. }
  cbn [map Spec.targets Spec.predictions fst snd removelast].
  unfold Scenario.huber, hl_loss_fn, Spec.summed.
  rewrite huber_loss_entries.
  cbn [tzip vzip mbind option_bind fmap option_fmap option_map default].
  rewrite bool_decide_eq_false_2 by done.
  rewrite bool_decide_eq_true_2 by done.
  unfold reduce_sum1, reduce_mean_last, reduce_mean1.
  cbn [map sum_list foldr length].
  assert (forall e, Rabs e < 1 -> Spec.huber_entry 1 e = 0.5 * e ^ 2)
    as Hsq.
  { intros e He. unfold Spec.huber_entry. by destruct (Rlt_dec _ _). }
  assert (INR 4 = 4) as -> by (simpl; lra).
  rewrite !Hsq; [|unfold Rabs; destruct (Rcase_abs _); lra..].
  f_equal. lra.
Qed.

Lemma call_normalisers_witness :
  (exists l r,
     fl_loss_fn Scenario.focal
       (map Spec.targets
          (Spec.participating (fun s => negb (Spec.ignored s))
             Scenario.y_true Scenario.y_pred))
       (map Spec.predictions
          (Spec.participating (fun s => negb (Spec.ignored s))
             Scenario.y_true Scenario.y_pred))
     = Some l
     /\ EfficientDetFocalLoss_call Scenario.focal Scenario.y_true
          Scenario.y_pred = Some r
     /\ 0 <= r <= l)
  /\ (exists r,
        EfficientDetHuberLoss_call Scenario.huber Scenario.box_true
          Scenario.box_pred = Some r
        /\ 0 <= r <= 12.5 * 0.0125).
Proof.
  assert (Spec.co_indexed Scenario.y_true Scenario.y_pred) as Hco
    by (split; repeat constructor; discriminate).
  assert (Spec.co_indexed Scenario.box_true Scenario.box_pred) as Hco'
    by (split; repeat constructor; discriminate).
  destruct focal_object_by_hand as (l & Hf & Hl).
  assert (0 <= 0.0125) as Hh by lra.
  split.
  - destruct (proj1 (call_normalisers Scenario.focal Scenario.huber
                       Scenario.y_true Scenario.y_pred l Hco Hl) Hf)
      as (r & Hcall & Hr).
    exists l, r. exact (conj Hf (conj Hcall Hr)).
  - exact (proj2 (call_normalisers Scenario.focal Scenario.huber
                    Scenario.box_true Scenario.box_pred 0.0125 Hco' Hh)
             huber_object_by_hand).
Defined.

(** ** More on the construction of the detector *)

Lemma available_iff (w : option string) :
  w ∈ _AVAILABLE_WEIGHTS
  <-> w = None \/ w = Some "imagenet"%string \/ w = Some "D0-VOC"%string.
Proof.
  unfold _AVAILABLE_WEIGHTS. rewrite !elem_of_union, !elem_of_singleton. tauto.
Qed.

Section MoreConstruction.
Context `{Collaborators}.



(** X13.  Weights that are not among the available ones are refused with
    a [ValueError] right after the first check, before anything is built,
    downloaded or loaded. *)
Theorem init_unknown_weights (a : init_args) :
  arg_weights a ∉ _AVAILABLE_WEIGHTS ->
  arg_custom_head_classifier a = false \/ arg_num_classes a <> None ->
  EfficientDet_init a
  = ([KerasModelInit], Raise (ValueError (msg_not_available (arg_weights a)))).
Proof.
  intros Hw Hfirst. unfold EfficientDet_init. rewrite bind_emit.
  assert (arg_custom_head_classifier a && is_none (arg_num_classes a) = false)
    as ->.
  { destruct Hfirst as [-> | Hn]; [done|].
    destruct (arg_num_classes a); [apply andb_false_r|done]. }
  rewrite bind_ret, bool_decide_eq_true_2 by done.
  by rewrite bind_raise.
Qed.

(** X14.  A custom head without weights ([weights=None], training from
    scratch) is refused with a [ValueError] before anything is built, even
    though a class count is given. *)
Theorem init_custom_head_from_scratch (a : init_args) (n : Z) :
  arg_custom_head_classifier a = true ->
  arg_num_classes a = Some n ->
  arg_weights a = None ->
  EfficientDet_init a
  = ([KerasModelInit], Raise (ValueError msg_custom_head_from_scratch)).
Proof.
  intros Hc Hn Hw. unfold EfficientDet_init. rewrite bind_emit, Hc, Hn, Hw.
  cbn [andb is_none]. rewrite bind_ret.
  rewrite bool_decide_eq_false_2
    by (intros Hnot; apply Hnot, available_iff; auto).
  rewrite bind_ret. rewrite orb_true_r. cbn [andb]. by rewrite bind_raise.
Qed.

(** X15.  A class count that differs from the one stored with the
    checkpoint is refused, unless a custom head is asked for: the
    [ValueError] comes once the folder is downloaded and [hp.json] is read,
    and before anything is built. *)
Theorem init_num_classes_mismatch (a : init_args) (n : Z) (save_dir : string)
    (params : hp_params) :
  arg_weights a = Some "D0-VOC"%string ->
  arg_custom_head_classifier a = false ->
  arg_num_classes a = Some n ->
  download_folder "gs://ml-generic-purpose-tf-models/D0-VOC" = Some save_dir ->
  json_load (save_dir +:+ "/hp.json") = Some params ->
  n <> n_classes params ->
  EfficientDet_init a
  = ([KerasModelInit;
      DownloadFolder "gs://ml-generic-purpose-tf-models/D0-VOC";
      JsonLoad (save_dir +:+ "/hp.json")],
     Raise (ValueError (msg_num_classes_differ (Some "D0-VOC"%string)))).
Proof.
  intros Hw Hc Hn Hdir Hparams Hne.
  unfold EfficientDet_init. rewrite Hn, Hw, Hc, available_D0_VOC.
  change (is_imagenet (Some "D0-VOC"%string)) with false.
  cbn [andb orb negb is_none show_weights].
  rewrite path_D0_VOC, !bind_emit, !bind_ret, bind_assoc, bind_lift_Some.
  rewrite bind_assoc, bind_emit, bind_assoc, Hdir, bind_lift_Some.
  rewrite bind_assoc, bind_emit, bind_assoc, Hparams, bind_lift_Some.
  rewrite bool_decide_eq_true_2 by congruence.
  by rewrite bind_assoc, !bind_raise.
Qed.

Lemma bind_Return_inv {A B} (m : M A) (k : A -> M B) t b :
  m ≫= k = (t, Return b) ->
  exists t1 a t2, m = (t1, Return a) /\ k a = (t2, Return b) /\ t = t1 ++ t2.
Proof.
  destruct m as [t1 [a|e]]; unfold mbind, M_bind; [|done].
  destruct (k a) as [t2 r] eqn:Ek. intros [= <- ->]. by exists t1, a, t2.
Qed.

Lemma check_Return_inv (c : bool) (e : exn) t (u : unit) :
  (if c then raise e else mret ()) = (t, Return u) -> c = false /\ t = [].
Proof. destruct c; [done|]. by intros [= <-]. Qed.

Lemma lift_Return_inv {A} (o : option A) (e : exn) t (a : A) :
  lift o e = (t, Return a) -> o = Some a /\ t = [].
Proof. destruct o; [|done]. by intros [= <- <-]. Qed.

Lemma emit_Return_inv (ev : event) t (u : unit) :
  emit ev = (t, Return u) -> t = [ev].
Proof. by intros [= <-]. Qed.

Lemma mret_Return_inv {A} (x y : A) t :
  (mret x : M A) = (t, Return y) -> x = y /\ t = [].
Proof. by intros [= <- <-]. Qed.

Lemma init_Return (a : init_args) (t : list event) (m : EfficientDet) :
  EfficientDet_init a = (t, Return m) ->
  exists n,
    arg_num_classes a = Some n
    /\ (((arg_weights a = None \/ arg_weights a = Some "imagenet"%string)
         /\ arg_custom_head_classifier a = false
         /\ m = assembled a n (arg_D a)
         /\ Forall (fun e => touches_checkpoint e = false) t)
        \/ (arg_weights a = Some "D0-VOC"%string
            /\ exists save_dir params loaded,
                download_folder "gs://ml-generic-purpose-tf-models/D0-VOC"
                = Some save_dir
                /\ json_load (save_dir +:+ "/hp.json") = Some params
                /\ (arg_custom_head_classifier a = true
                    \/ n = n_classes params)
                /\ load_weights (save_dir +:+ "/model.h5")
                     (arg_custom_head_classifier a)
                     (networks (assembled a n (hp_efficientdet params)))
                   = Some loaded
                /\ m = (let m :=
                          set_networks
                            (assembled a n (hp_efficientdet params)) loaded in
                        if arg_custom_head_classifier a
                        then set_class_head m
                               (class_head
                                  (assembled a n (hp_efficientdet params)))
                        else m))).
Proof.
  unfold EfficientDet_init. intros Hinit.
  destruct (arg_custom_head_classifier a) eqn:Ec;
    destruct (arg_weights a) as [s|] eqn:Ew;
    [destruct (decide (s = "imagenet"%string)) as [->|Hs];
     [|destruct (decide (s = "D0-VOC"%string)) as [->|Hs']]
    | |destruct (decide (s = "imagenet"%string)) as [->|Hs];
     [|destruct (decide (s = "D0-VOC"%string)) as [->|Hs']]| ];
    unfold is_imagenet in Hinit;
    rewrite ?bool_decide_eq_true_2, ?bool_decide_eq_false_2 in Hinit
      by congruence;
    cbn [andb orb negb is_none show_weights] in Hinit;
    repeat match goal with
    | Hb : _ ≫= _ = (_, Return _) |- _ =>
        apply bind_Return_inv in Hb as (? & ? & ? & ? & Hb & ->)
    | Hb : emit _ = (_, Return _) |- _ => apply emit_Return_inv in Hb as ->
    | Hb : lift _ _ = (_, Return _) |- _ =>
        apply lift_Return_inv in Hb as [? ->]
    | Hb : (if _ then raise _ else mret ()) = (_, Return _) |- _ =>
        apply check_Return_inv in Hb as [? ->]
    | Hb : raise _ = (_, Return _) |- _ => discriminate Hb
    | Hb : mret _ = (_, Return _) |- _ =>
        apply mret_Return_inv in Hb as [? ->]
    | x : (option string * bool * Z)%type |- _ =>
        destruct x as [[? ?] ?]
    end.
  all: try (exfalso;
            match goal with
            | Hav : bool_decide (_ ∉ _) = false |- _ =>
                apply bool_decide_eq_false, dec_stable, available_iff in Hav;
                destruct Hav as [|[|]]; congruence
            end).
  all: simplify_eq; try rewrite path_D0_VOC in *; simplify_eq.
  all: match goal with
       | Hn : arg_num_classes _ = Some ?n |- _ =>
           exists n; split; [exact Hn|]
       end.
  all: unfold networks, assembled, is_imagenet; rewrite ?Ew;
    rewrite ?bool_decide_eq_true_2, ?bool_decide_eq_false_2 by congruence.
  - right. split; [done|]. eexists _, _, _. by repeat split; eauto.
  - left. split; [by right|]. split; [done|]. split; [done|].
    by repeat constructor.
  - right. split; [done|]. eexists _, _, _. repeat split; eauto.
    right.
    match goal with
    | Hn : arg_num_classes _ = Some _, Hm : _ && _ = false |- _ =>
        rewrite Hn in Hm; cbn [is_none negb andb] in Hm;
        apply bool_decide_eq_false, dec_stable in Hm; congruence
    end.
  - left. split; [by left|]. split; [done|]. split; [done|].
    by repeat constructor.
Qed.

Lemma bind_Raise_inv {A B} (m : M A) (k : A -> M B) t e :
  m ≫= k = (t, Raise e) ->
  m = (t, Raise e)
  \/ exists t1 a t2,
       m = (t1, Return a) /\ k a = (t2, Raise e) /\ t = t1 ++ t2.
Proof.
  destruct m as [t1 [a|e']]; unfold mbind, M_bind; [|intros [= <- <-]; by left].
  destruct (k a) as [t2 r] eqn:Ek. intros [= <- ->]. right. by exists t1, a, t2.
Qed.

Lemma check_Raise_inv (c : bool) (e e' : exn) t :
  (if c then raise e else mret ()) = (t, Raise e') -> e' = e /\ t = [].
Proof. destruct c; [|done]. by intros [= <- <-]. Qed.

Lemma lift_Raise_inv {A} (o : option A) (e e' : exn) t :
  lift o e = (t, Raise e') -> o = None /\ e' = e /\ t = [].
Proof. destruct o; [done|]. by intros [= <- <-]. Qed.

(** X16.  A detector that construction returns has the class count, the
    score threshold and the [training_mode] of the arguments -- the flag is
    back to what was asked for after the weights are loaded -- and comes
    from available weights, which with a custom head are not [None]. *)
Theorem init_returns (a : init_args) (t : list event) (m : EfficientDet) :
  EfficientDet_init a = (t, Return m) ->
  arg_num_classes a = Some (num_classes m)
  /\ score_threshold m = arg_score_threshold a
  /\ training_mode m = arg_training_mode a
  /\ arg_weights a ∈ _AVAILABLE_WEIGHTS
  /\ (arg_custom_head_classifier a = true -> arg_weights a <> None).
Proof.
  intros Hinit. apply init_Return in Hinit as (n & Hn & Hcases).
  destruct Hcases as [(Hw & Hc & -> & _)
                     | (Hw & dir & params & loaded & _ & _ & _ & _ & ->)].
  - repeat split; [done| |congruence].
    apply available_iff. destruct Hw; auto.
  - cbn zeta. destruct (arg_custom_head_classifier a); repeat split;
      try done; try congruence.
    all: apply available_iff; auto.
Qed.

(** X17.  Built from the checkpoint, the detector takes its scaling from
    the stored hyperparameters, not from the [D] argument; backbone, neck
    and box head are the ones [load_weights] hands back, and so is the
    class head unless a custom head is asked for, in which case it is a
    fresh [RetinaNetClassifier] for the given class count.  Without a
    custom head the given class count is the stored one. *)
Theorem init_from_checkpoint_returns (a : init_args) (t : list event)
    (m : EfficientDet) :
  arg_weights a = Some "D0-VOC"%string ->
  EfficientDet_init a = (t, Return m) ->
  exists save_dir params loaded,
    download_folder "gs://ml-generic-purpose-tf-models/D0-VOC" = Some save_dir
    /\ json_load (save_dir +:+ "/hp.json") = Some params
    /\ load_weights (save_dir +:+ "/model.h5") (arg_custom_head_classifier a)
         (networks (assembled a (num_classes m) (hp_efficientdet params)))
       = Some loaded
    /\ config m = EfficientDetCompudScaling (hp_efficientdet params)
    /\ backbone m = loaded.1.1.1
    /\ neck m = loaded.1.1.2
    /\ bb_head m = loaded.2
    /\ class_head m
       = (if arg_custom_head_classifier a
          then RetinaNetClassifier (config_Wbifpn (config m))
                 (config_Dclass (config m)) (num_classes m) "class_head/"
          else loaded.1.2)
    /\ (arg_custom_head_classifier a = false ->
        num_classes m = n_classes params).
Proof.
  intros Hw Hinit. apply init_Return in Hinit as (n & Hn & Hcases).
  destruct Hcases as [([Hw'|Hw'] & _) | (_ & dir & params & loaded & Hd & Hj
                                         & Hmatch & Hl & ->)];
    [congruence..|].
  exists dir, params, loaded. cbn zeta.
  destruct (arg_custom_head_classifier a); repeat split; try done.
  destruct Hmatch; [done|]. by intros _.
Qed.

(** X18.  Built from scratch or from the ImageNet backbone, construction
    never touches a checkpoint -- no download, no [hp.json], no weights
    loaded -- whether it returns or raises, and a detector it returns has
    the scaling of the [D] argument. *)
Theorem init_without_checkpoint (a : init_args) (t : list event)
    (r : outcome EfficientDet) :
  arg_weights a = None \/ arg_weights a = Some "imagenet"%string ->
  EfficientDet_init a = (t, r) ->
  Forall (fun e => touches_checkpoint e = false) t
  /\ (forall m, r = Return m ->
        config m = EfficientDetCompudScaling (arg_D a)).
Proof.
  intros Hw Hinit. destruct r as [m|e].
  - apply init_Return in Hinit as (n & Hn & Hcases).
    destruct Hcases as [(_ & _ & -> & Ht) | (Hw' & _)];
      [|destruct Hw; congruence].
    split; [exact Ht|]. by intros ? [= <-].
  - split; [|done]. revert Hinit. unfold EfficientDet_init, is_imagenet.
    destruct Hw as [-> | ->];
      rewrite ?bool_decide_eq_true_2, ?bool_decide_eq_false_2 by congruence;
      cbn [andb orb negb is_none]; intros Hinit;
      repeat match goal with
      | Hb : _ ≫= _ = (_, Return _) |- _ =>
          apply bind_Return_inv in Hb as (? & ? & ? & ? & Hb & ->)
      | Hb : _ ≫= _ = (_, Raise _) |- _ =>
          apply bind_Raise_inv in Hb as [Hb | (? & ? & ? & ? & Hb & ->)]
      | Hb : emit _ = (_, Return _) |- _ => apply emit_Return_inv in Hb as ->
      | Hb : emit _ = (_, Raise _) |- _ => discriminate Hb
      | Hb : lift _ _ = (_, Return _) |- _ =>
          apply lift_Return_inv in Hb as [? ->]
      | Hb : lift _ _ = (_, Raise _) |- _ =>
          apply lift_Raise_inv in Hb as (? & -> & ->)
      | Hb : (if _ then raise _ else mret ()) = (_, Return _) |- _ =>
          apply check_Return_inv in Hb as [? ->]
      | Hb : (if _ then raise _ else mret ()) = (_, Raise _) |- _ =>
          apply check_Raise_inv in Hb as [-> ->]
      | Hb : mret _ = (_, Return _) |- _ =>
          apply mret_Return_inv in Hb as [? ->]
      | Hb : mret _ = (_, Raise _) |- _ => discriminate Hb
      | x : (option string * bool * Z)%type |- _ =>
          destruct x as [[? ?] ?]
      end;
      by repeat constructor.
Qed.

(** X20.  The [bidirectional] argument has no effect: construction does the
    same and returns the same whatever it is. *)
Theorem init_ignores_bidirectional (a : init_args) (b : bool) :
  EfficientDet_init (Frame.with_bidirectional a b) = EfficientDet_init a.
Proof.
  unfold EfficientDet_init.
  cbn [Frame.with_bidirectional arg_num_classes arg_D arg_bidirectional
       arg_freeze_backbone arg_score_threshold arg_weights
       arg_custom_head_classifier arg_training_mode].
  destruct (negb (is_imagenet (arg_weights a)) && negb (is_none (arg_weights a)));
    reflexivity.
Qed.
End MoreConstruction.

Lemma init_unknown_weights_witness :
  EfficientDet_init (H0 := Scenario.toy)
    (Cases.args (Some 20%Z) (Some "D7"%string) false)
  = ([KerasModelInit],
     Raise (ValueError (msg_not_available (Some "D7"%string)))).
Proof.
  apply (init_unknown_weights (H0 := Scenario.toy)
           (Cases.args (Some 20%Z) (Some "D7"%string) false)).
  - rewrite available_iff. intros [|[|]]; discriminate.
  - left. reflexivity.
Defined.

Lemma init_custom_head_from_scratch_witness :
  EfficientDet_init (H0 := Scenario.toy) (Cases.args (Some 20%Z) None true)
  = ([KerasModelInit], Raise (ValueError msg_custom_head_from_scratch)).
Proof.
  apply (init_custom_head_from_scratch (H0 := Scenario.toy)
           (Cases.args (Some 20%Z) None true) 20 eq_refl eq_refl eq_refl).
Defined.

Lemma init_num_classes_mismatch_witness :
  EfficientDet_init (H0 := Scenario.toy)
    (Cases.args (Some 21%Z) (Some "D0-VOC"%string) false)
  = ([KerasModelInit;
      DownloadFolder "gs://ml-generic-purpose-tf-models/D0-VOC";
      JsonLoad "/tmp/D0-VOC/hp.json"],
     Raise (ValueError (msg_num_classes_differ (Some "D0-VOC"%string)))).
Proof.
  apply (init_num_classes_mismatch (H0 := Scenario.toy)
           (Cases.args (Some 21%Z) (Some "D0-VOC"%string) false) 21
           "/tmp/D0-VOC"
           {| n_classes := 20; hp_bidirectional := true;
              hp_efficientdet := 0 |}
           eq_refl eq_refl eq_refl eq_refl eq_refl).
  discriminate.
Defined.

Lemma init_returns_witness :
  Some 20%Z = Some (num_classes Scenario.model)
  /\ score_threshold Scenario.model = 0.1
  /\ training_mode Scenario.model = true.
Proof.
  destruct (init_returns (H0 := Scenario.toy) _ _ _ init_from_imagenet)
    as (Hn & Hs & Hm & _).
  exact (conj Hn (conj Hs Hm)).
Defined.

Lemma init_from_checkpoint_returns_witness :
  exists params,
    json_load (Collaborators := Scenario.toy) "/tmp/D0-VOC/hp.json"
    = Some params
    /\ config Scenario.model
       = EfficientDetCompudScaling (Collaborators := Scenario.toy)
           (hp_efficientdet params).
Proof.
  destruct ((fun Hw => init_from_checkpoint_returns (H0 := Scenario.toy)
                         _ _ _ Hw init_from_checkpoint) eq_refl)
    as (dir & params & loaded & Hd & Hj & _ & Hc & _).
  exists params. injection Hd as <-. exact (conj Hj Hc).
Defined.

Lemma init_without_checkpoint_witness :
  Forall (fun e => touches_checkpoint e = false)
    [KerasModelInit; BuildConfig 0; BuildBackbone 0 (Some "imagenet"%string);
     SetBackboneTrainable true; BuildNeck; BuildClassHead 20; BuildBBHead;
     BuildFilterDetections].
Proof.
  exact (proj1 ((fun Hw => init_without_checkpoint (H0 := Scenario.toy) _ _ _
                            Hw init_from_imagenet) (or_intror eq_refl))).
Defined.

(** ** from_pretrained *)

Section MorePretrained.
Context `{Checkpoints}.

(** X21.  The name ['imagenet'] is among the available weights but has no
    checkpoint path: [from_pretrained('imagenet')] ends in a [KeyError]
    without loading anything, whatever the file system holds. *)
Theorem from_pretrained_imagenet (num_classes : option Z) (kwargs : Kwargs) :
  from_pretrained "imagenet" num_classes kwargs
  = ([], Raise (KeyError "imagenet")).
Proof.
  unfold from_pretrained.
  assert (Some "imagenet"%string ∈ _AVAILABLE_WEIGHTS) as Hin
    by (apply available_iff; auto).
  rewrite (bool_decide_eq_false_2 (_ ∉ _)) by (intros Hnot; by apply Hnot).
  rewrite andb_false_r, (bool_decide_eq_true_2 _ Hin).
  unfold _WEIGHTS_PATHS. by rewrite lookup_singleton_ne.
Qed.

(** X22.  A path that is neither a directory nor the name of available
    weights is refused with a [ValueError]; the loader is not called. *)
Theorem from_pretrained_unknown (checkpoint_path : string)
    (num_classes : option Z) (kwargs : Kwargs) :
  is_dir checkpoint_path = false ->
  Some checkpoint_path ∉ _AVAILABLE_WEIGHTS ->
  from_pretrained checkpoint_path num_classes kwargs
  = ([], Raise (ValueError (msg_checkpoint_not_available checkpoint_path))).
Proof.
  intros Hdir Hw. unfold from_pretrained.
  by rewrite Hdir, (bool_decide_eq_true_2 _ Hw).
Qed.

(** X23.  What [from_pretrained] returns is the model the loader handed
    back, for the path itself or for the published path of ['D0-VOC'].
    Without a class count it is that model unchanged; with one, only the
    class count and the class head differ -- the head is built from the
    fields [Wbifpn] and [D] of the loaded configuration -- while the
    networks, [training_mode] and the detection filter with its score
    threshold are the loaded ones. *)
Theorem from_pretrained_returns (checkpoint_path : string)
    (num_classes : option Z) (kwargs : Kwargs) (t : list effect)
    (m : EfficientDet) :
  from_pretrained checkpoint_path num_classes kwargs = (t, Return m) ->
  exists path model stored,
    load path kwargs = Some (model, stored)
    /\ (path = checkpoint_path
        \/ (checkpoint_path = "D0-VOC"%string
            /\ path = "gs://ml-generic-purpose-tf-models/D0-VOC"%string))
    /\ match num_classes with
       | None => m = model /\ t = [Load path]
       | Some n =>
           Detector.num_classes m = n
           /\ class_head m
              = RetinaNetClassifier (config_Wbifpn (config model))
                  (config_D (config model)) n RetinaNetClassifier_prefix
           /\ config m = config model
           /\ backbone m = backbone model
           /\ neck m = neck model
           /\ bb_head m = bb_head model
           /\ training_mode m = training_mode model
           /\ filter_detections m = filter_detections model
       end.
Proof.
  unfold from_pretrained.
  destruct (negb (is_dir checkpoint_path) && _); [done|].
  destruct (bool_decide (Some checkpoint_path ∈ _AVAILABLE_WEIGHTS)) eqn:Ein.
  - apply bool_decide_eq_true, available_iff in Ein.
    destruct Ein as [|[[= ->]|[= ->]]]; [done| |].
    + unfold _WEIGHTS_PATHS. by rewrite lookup_singleton_ne.
    + rewrite path_D0_VOC.
      destruct (load _ kwargs) as [[model stored]|] eqn:El; [|done].
      intros Hret. exists "gs://ml-generic-purpose-tf-models/D0-VOC"%string,
                     model, stored.
      split; [done|]. split; [by right|].
      destruct num_classes as [n|]; injection Hret as <- <-; by repeat split.
  - destruct (load _ kwargs) as [[model stored]|] eqn:El; [|done].
    intros Hret. exists checkpoint_path, model, stored.
    split; [done|]. split; [by left|].
    destruct num_classes as [n|]; injection Hret as <- <-; by repeat split.
Qed.

(** X24.  The name ['D0-VOC'] always means the published checkpoint: a
    local directory of that name is not looked into, the model comes from
    the path [_WEIGHTS_PATHS] gives. *)
Theorem from_pretrained_published (kwargs : Kwargs) (model : EfficientDet)
    (stored : Stored) :
  load "gs://ml-generic-purpose-tf-models/D0-VOC" kwargs = Some (model, stored) ->
  from_pretrained "D0-VOC" None kwargs
  = ([Load "gs://ml-generic-purpose-tf-models/D0-VOC"], Return model).
Proof.
  intros Hload. unfold from_pretrained.
  assert (Some "D0-VOC"%string ∈ _AVAILABLE_WEIGHTS) as Hin
    by (apply available_iff; auto).
  rewrite (bool_decide_eq_false_2 (_ ∉ _)) by (intros Hnot; by apply Hnot).
  rewrite andb_false_r, (bool_decide_eq_true_2 _ Hin), path_D0_VOC.
  by rewrite Hload.
Qed.
End MorePretrained.

Lemma from_pretrained_unknown_witness :
  from_pretrained (H1 := Cases.toy_checkpoints) "nowhere" None tt
  = ([], Raise (ValueError (msg_checkpoint_not_available "nowhere"))).
Proof.
  apply (from_pretrained_unknown (H1 := Cases.toy_checkpoints) "nowhere" None tt
           eq_refl).
  rewrite available_iff. intros [|[|]]; discriminate.
Defined.

Lemma from_pretrained_published_witness :
  from_pretrained (H1 := Cases.toy_checkpoints) "D0-VOC" None tt
  = ([Load "gs://ml-generic-purpose-tf-models/D0-VOC"], Return Scenario.model).
Proof.
  exact (from_pretrained_published (H1 := Cases.toy_checkpoints) tt
           Scenario.model tt eq_refl).
Defined.

(** A local directory with a checkpoint, loaded as it is. *)
Example from_pretrained_local_directory :
  from_pretrained (H1 := Cases.toy_checkpoints) "/ckpt" None tt
  = ([Load "/ckpt"], Return Scenario.model).
Proof.
  unfold from_pretrained.
  change (is_dir (Checkpoints := Cases.toy_checkpoints) "/ckpt") with true.
  cbn [negb andb].
  rewrite (bool_decide_eq_false_2 (Some "/ckpt"%string ∈ _AVAILABLE_WEIGHTS)).
  - reflexivity.
  - rewrite available_iff. intros [|[|]]; discriminate.
Qed.

Lemma from_pretrained_returns_witness :
  exists path model stored,
    load (Checkpoints := Cases.toy_checkpoints) path tt = Some (model, stored)
    /\ (path = "/ckpt"%string
        \/ ("/ckpt"%string = "D0-VOC"%string
            /\ path = "gs://ml-generic-purpose-tf-models/D0-VOC"%string))
    /\ (Scenario.model = model /\ [Load "/ckpt"] = [Load path]).
Proof.
  exact (from_pretrained_returns (H1 := Cases.toy_checkpoints) "/ckpt" None tt
           _ _ from_pretrained_local_directory).
Defined.
